(** * RallyCoach strategy engine: scoring engine and recommendation generator

    A shallow embedding of [scoring-engine.ts] and
    [recommendation-generator.ts] of the strategy engine, with the
    properties of the engine stated and proved over it.

    Conventions of the embedding.
    - A JavaScript [number] that carries a measure (pressure, score factor,
      court coordinate, height) is an exact rational of [Q]; rounding
      of IEEE doubles is not modelled.  Zone ids, shot indices and rounded
      scores are integers of [Z].
    - [Math.min], [Math.max], [Math.round], [Math.floor] and [Math.abs] are
      written out below.
    - [Date.now()] and [Math.random()] are reads of an explicit [World]; a
      computation that may read them, or throw a [TypeError], lives in the
      monad [Run].
    - [console.log] tracing ([logDebug]) produces no value and is left out.
    - The modules [constants.ts], [shot-segmentation.ts],
      [rally-state-machine.ts] and [feature-extraction.ts] are imported by the
      two embedded modules; what is used of them is collected in the records
      [Constants] and [Collaborators], over which every definition is
      parameterised. *)

From Stdlib Require Import ZArith QArith Qround Lqa Lia List String Bool.
From Stdlib Require Import Sorting.Sorted Sorting.Permutation.
From Stdlib Require DecimalString.
Import ListNotations.

Local Open Scope Z_scope.
Local Open Scope Q_scope.

(** ** JavaScript arithmetic *)

Module Js.

(** [a > b] and [a < b] on numbers. *)
Definition gt (a b : Q) : bool := negb (Qle_bool a b).
Definition lt (a b : Q) : bool := negb (Qle_bool b a).

Definition Math_max (a b : Q) : Q := if Qle_bool a b then b else a.
Definition Math_min (a b : Q) : Q := if Qle_bool a b then a else b.

(** [Math.round] rounds to the nearest integer, halves upwards. *)
Definition Math_round (q : Q) : Z := Qfloor (q + (1 # 2)).

(** [Math.PI], the double nearest to pi. *)
Definition Math_PI : Q := 884279719003555 # 281474976710656.

(** [`${n}`] for an integer. *)
Definition show_Z (z : Z) : string :=
  DecimalString.NilZero.string_of_int (Z.to_int z).

Definition show_nat (n : nat) : string := show_Z (Z.of_nat n).

(** [Array.prototype.includes] on integers. *)
Definition includes (l : list Z) (z : Z) : bool := existsb (Z.eqb z) l.

(** [Array.prototype.join]. *)
Fixpoint join (sep : string) (l : list string) : string :=
  match l with
  | [] => EmptyString
  | [s] => s
  | s :: rest => (s ++ sep ++ join sep rest)%string
  end.

(** [Array.prototype.sort] with a comparator: the sort is stable, so an
    element is put before the first later element it does not come
    after. *)
Fixpoint sort_insert {A : Type} (cmp : A -> A -> Z) (a : A) (l : list A)
    : list A :=
  match l with
  | [] => [a]
  | b :: rest =>
      if (cmp a b <=? 0)%Z then a :: b :: rest
      else b :: sort_insert cmp a rest
  end.

Definition Array_sort {A : Type} (cmp : A -> A -> Z) (l : list A)
    : list A :=
  fold_right (sort_insert cmp) [] l.

End Js.

Import Js.

(** ** Data model ([types.ts], as used by the two modules) *)

Inductive ShotType : Type :=
  | Clear | Drop | Smash | Drive | Net | Lift | Serve | Push | Unknown.

Inductive RallyPhase : Type := Attack | Neutral | Defense.

Inductive Initiative : Type := Us | Them | UnknownInitiative.

Inductive PlayerSide : Type := Near | Far.

Inductive RationaleType : Type :=
  | movement_pressure | open_court | risk_reduction | angle_denial
  | recovery_time.

Definition ShotType_eqb (a b : ShotType) : bool :=
  match a, b with
  | Clear, Clear | Drop, Drop | Smash, Smash | Drive, Drive | Net, Net
  | Lift, Lift | Serve, Serve | Push, Push | Unknown, Unknown => true
  | _, _ => false
  end.

Definition RallyPhase_eqb (a b : RallyPhase) : bool :=
  match a, b with
  | Attack, Attack | Neutral, Neutral | Defense, Defense => true
  | _, _ => false
  end.

(** The string a shot type or phase is at run time. *)
Definition ShotType_name (s : ShotType) : string :=
  match s with
  | Clear => "clear" | Drop => "drop" | Smash => "smash" | Drive => "drive"
  | Net => "net" | Lift => "lift" | Serve => "serve" | Push => "push"
  | Unknown => "unknown"
  end.

Definition RallyPhase_name (p : RallyPhase) : string :=
  match p with
  | Attack => "attack" | Neutral => "neutral" | Defense => "defense"
  end.

(** [list.includes(shotType)] for a literal list of shot types. *)
Definition includesShot (l : list ShotType) (s : ShotType) : bool :=
  existsb (ShotType_eqb s) l.

Record Position : Type := { pos_x : Q; pos_y : Q }.

Record TimedPosition : Type :=
  { tpos_x : Q; tpos_y : Q; tpos_timestamp : Q }.

Record TrajectoryPoint : Type := { tp_x : Q; tp_y : Q; tp_timestamp : Q }.

Record PathPoint : Type := { pt_x : Q; pt_y : Q; pt_z : Q }.

Record RallyState : Type :=
  { phase : RallyPhase;
    initiative : Initiative;
    pressure : Q;
    openCourtZones : list Z;
    timestamp : Q }.

Record ShotSegment : Type :=
  { shotIndex : Z;
    seg_type : ShotType;
    startTime : Q;
    endTime : Q;
    trajectorySlice : list TrajectoryPoint;
    player : PlayerSide }.

Record ShotFeatures : Type :=
  { contactZone : Z;
    landingZone : Z;
    shuttleSpeedProxy : Q;
    shuttleHeightProxy : Q;
    opponentMovementDistance : Q;
    opponentDirectionChange : Q;
    recoveryQuality : Q;
    rallyState : RallyState }.

Record RecommendationRationale : Type :=
  { rat_type : RationaleType; description : string; impact : Q }.

Record ShotRecommendation : Type :=
  { rec_id : string;
    shotType : ShotType;
    targetZone : Z;
    pathPolyline : list PathPoint;
    score : Z;
    rationale : list RecommendationRationale;
    confidence : Q }.

Record ScoringWeights : Type :=
  { movementPressure : Q;
    openCourt : Q;
    riskUnderPressure : Q;
    angleExposure : Q }.

Record PerShotAnalysis : Type :=
  { psa_shot : ShotSegment;
    psa_features : ShotFeatures;
    recommendations : list ShotRecommendation }.

Record RallySummary : Type :=
  { totalShots : nat;
    dominantPhase : RallyPhase;
    averagePressure : Q;
    keyMoments : list Z;
    winner : option string }.

(** [processedAt] is kept as the instant (milliseconds) that
    [new Date().toISOString()] renders. *)
Record AnalysisMetadata : Type :=
  { processedAt : Z;
    engineVersion : string;
    processingTimeMs : Z;
    debugLogs : option (list string) }.

Record RallyAnalysisResult : Type :=
  { sessionId : string;
    rallyId : string;
    shots : list PerShotAnalysis;
    summary : RallySummary;
    metadata : AnalysisMetadata }.

(** ** The constants module

    [constants.ts] holds the tables and thresholds the engine reads.  The
    tables are taken as they are used: a lookup that the code guards with
    [??] returns an [option]. *)

Record PressureThresholds : Type := { thr_attack : Q; thr_defense : Q }.

Record Constants : Type :=
  { DEBUG_FLAG : bool;
    ENGINE_VERSION : string;
    VIABLE_SHOTS_BY_PHASE : RallyPhase -> list ShotType;
    SHOT_HEIGHT_PROXY : ShotType -> option Q;
    DEFAULT_SCORING_WEIGHTS : ScoringWeights;
    BASE_SCORE : Q;
    SHOT_RISK_LEVELS : ShotType -> option Q;
    ZONE_DISTANCES : Z -> option (Z -> option Q);
    ANGLE_RISK_BY_ZONE : Z -> option Q;
    PRESSURE_THRESHOLDS : PressureThresholds }.

(** Modelled from the spec: [MIN_SCORE] and [MAX_SCORE] of [constants.ts],
    the bounds the score is clamped to; section 4.5 gives the range as
    [0,100], which is also the range the generator's unit tests expect. *)
Definition MIN_SCORE : Q := 0.
Definition MAX_SCORE : Q := 100.

(** ** Scoring engine ([scoring-engine.ts]) *)

Section ScoringEngine.

Variable K : Constants.

(** [calculateMovementPressureScore]. *)
Definition calculateMovementPressureScore
    (targetZone : Z) (features : ShotFeatures) : Q :=
  let zoneDistance :=
    match ZONE_DISTANCES K (landingZone features) with
    | Some row => match row targetZone with Some d => d | None => 0.5 end
    | None => 0.5
    end in
  let momentumFactor := opponentDirectionChange features / Math_PI in
  let score := (zoneDistance * 0.7) + (momentumFactor * 0.3) in
  Math_min 1 (Math_max 0 score).

(** [calculateOpenCourtScore]. *)
Definition calculateOpenCourtScore
    (targetZone : Z) (rallyState : RallyState) : Q :=
  if includes (openCourtZones rallyState) targetZone then
    let cornerBonus :=
      if includes [0; 2; 6; 8]%Z targetZone then 0.2 else 0 in
    Math_min 1 (0.8 + cornerBonus)
  else
    let adjacentToOpen :=
      existsb (fun openZone =>
                 let diff := Z.abs (targetZone - openZone) in
                 (diff =? 1)%Z || (diff =? 3)%Z)
              (openCourtZones rallyState) in
    if adjacentToOpen then 0.4 else 0.1.

(** [assessShotRisk]. *)
Definition assessShotRisk (shotType : ShotType) (rallyState : RallyState)
    : Q :=
  let baseRisk :=
    match SHOT_RISK_LEVELS K shotType with Some r => r | None => 0.5 end in
  let pressureMultiplier := 1 + (pressure rallyState * 0.5) in
  let phaseMultiplier :=
    match phase rallyState with
    | Defense =>
        if includesShot [Smash; Drop; Net] shotType then 1.3 else 1
    | Attack =>
        if includesShot [Clear; Lift] shotType then 0.8 else 1
    | Neutral => 1
    end in
  let adjustedRisk := baseRisk * pressureMultiplier * phaseMultiplier in
  Math_min 1 (Math_max 0 adjustedRisk).

(** [calculateAngleExposure]. *)
Definition calculateAngleExposure (targetZone : Z) (shotType : ShotType)
    : Q :=
  let baseAngleRisk :=
    match ANGLE_RISK_BY_ZONE K targetZone with
    | Some r => r
    | None => 0.5
    end in
  let shotTypeMultiplier :=
    if includesShot [Drop; Net] shotType && includes [1; 4]%Z targetZone
    then 1.3 else 1 in
  let shotTypeMultiplier :=
    if ShotType_eqb shotType Clear && includes [6; 8]%Z targetZone
    then 0.7 else shotTypeMultiplier in
  let angleRisk := baseAngleRisk * shotTypeMultiplier in
  Math_min 1 (Math_max 0 angleRisk).

(** [calculateConfidence]. *)
Definition calculateConfidence
    (shotType : ShotType) (rallyState : RallyState)
    (features : ShotFeatures) : Q :=
  let confidence := 0.75 in
  let confidence :=
    if RallyPhase_eqb (phase rallyState) Attack
       && includesShot [Smash; Drop; Net] shotType
    then confidence + 0.1
    else if RallyPhase_eqb (phase rallyState) Defense
            && includesShot [Clear; Lift] shotType
    then confidence + 0.1
    else confidence in
  let confidence :=
    if gt (pressure rallyState) (thr_defense (PRESSURE_THRESHOLDS K))
    then confidence - 0.1 else confidence in
  let confidence :=
    if lt (recoveryQuality features) 0.3
    then confidence + 0.05 else confidence in
  Math_min 1 (Math_max 0.5 confidence).

(** [buildRationale]: the entries are pushed in this order. *)
Definition buildRationale
    (targetZone : Z) (shotType : ShotType) (features : ShotFeatures)
    (rallyState : RallyState)
    (movementScore openCourtScore riskScore angleRisk : Q)
    : list RecommendationRationale :=
  (if gt movementScore 0.5 then
     [ {| rat_type := movement_pressure;
          description :=
            if gt movementScore 0.7
            then "Forces significant opponent movement"
            else "Increases opponent movement distance";
          impact := movementScore |} ]
   else [])
  ++
  (if gt openCourtScore 0.5 then
     [ {| rat_type := open_court;
          description :=
            if gt openCourtScore 0.7
            then "Targets undefended court area"
            else "Exploits partial court opening";
          impact := openCourtScore |} ]
   else [])
  ++
  (if gt (pressure rallyState) (thr_defense (PRESSURE_THRESHOLDS K))
      && gt riskScore 0.5 then
     [ {| rat_type := risk_reduction;
          description := "Higher risk shot under pressure situation";
          impact := - riskScore |} ]
   else if lt riskScore 0.3 && RallyPhase_eqb (phase rallyState) Defense
   then
     [ {| rat_type := risk_reduction;
          description := "Safe shot to reset the rally";
          impact := 1 - riskScore |} ]
   else [])
  ++
  (if gt angleRisk 0.4 then
     [ {| rat_type := angle_denial;
          description :=
            if gt angleRisk 0.6
            then "May expose court to counter-attack angles"
            else "Moderate angle exposure to opponent";
          impact := - angleRisk |} ]
   else [])
  ++
  (if includesShot [Clear; Lift] shotType
      && gt (recoveryQuality features) 0.4 then
     [ {| rat_type := recovery_time;
          description := "Provides time to recover court position";
          impact := 0.5 |} ]
   else []).

(** [scoreRecommendation]: the candidate with [score], [rationale] and
    [confidence] replaced. *)
Definition scoreRecommendation
    (recommendation : ShotRecommendation) (features : ShotFeatures)
    (rallyState : RallyState) (weights : ScoringWeights)
    : ShotRecommendation :=
  let score := BASE_SCORE K in
  let movementScore :=
    calculateMovementPressureScore (targetZone recommendation) features in
  let openCourtScore :=
    calculateOpenCourtScore (targetZone recommendation) rallyState in
  let riskScore := assessShotRisk (shotType recommendation) rallyState in
  let angleRisk :=
    calculateAngleExposure (targetZone recommendation)
                           (shotType recommendation) in
  let score := score + movementScore * movementPressure weights in
  let score := score + openCourtScore * openCourt weights in
  let score :=
    if gt (pressure rallyState) (thr_attack (PRESSURE_THRESHOLDS K))
    then score - riskScore * riskUnderPressure weights
    else score in
  let score := score - angleRisk * angleExposure weights in
  let score := Math_min MAX_SCORE (Math_max MIN_SCORE score) in
  let rationale :=
    buildRationale (targetZone recommendation) (shotType recommendation)
                   features rallyState
                   movementScore openCourtScore riskScore angleRisk in
  let confidence :=
    calculateConfidence (shotType recommendation) rallyState features in
  {| rec_id := rec_id recommendation;
     shotType := shotType recommendation;
     targetZone := targetZone recommendation;
     pathPolyline := pathPolyline recommendation;
     score := Math_round score;
     rationale := rationale;
     confidence := confidence |}.

(** [scoreAndRankRecommendations]. *)
Definition scoreAndRankRecommendations
    (recommendations : list ShotRecommendation) (features : ShotFeatures)
    (rallyState : RallyState) (weights : ScoringWeights)
    : list ShotRecommendation :=
  let scored :=
    map (fun rec => scoreRecommendation rec features rallyState weights)
        recommendations in
  Array_sort (fun a b => (score b - score a)%Z) scored.

End ScoringEngine.

(** ** Clock, randomness and exceptions

    [Date.now()] and [Math.random()] read the world; the n-th read of each
    returns what the world holds at position n.  A computation returns a
    value and the world it leaves, or throws. *)

Record World : Type :=
  { clock : nat -> Z;
    entropy : nat -> string;
    clockReads : nat;
    entropyReads : nat }.

Definition Run (A : Type) : Type := World -> option (A * World).

Definition ret {A : Type} (a : A) : Run A := fun w => Some (a, w).

Definition bind {A B : Type} (m : Run A) (k : A -> Run B) : Run B :=
  fun w => match m w with
           | Some (a, w') => k a w'
           | None => None
           end.

Definition throw {A : Type} : Run A := fun _ => None.

Notation "x <- m ;; k" := (bind m (fun x => k))
  (at level 61, m at next level, right associativity).

(** [Date.now()] (also the instant of [new Date()]). *)
Definition Date_now : Run Z :=
  fun w => Some (clock w (clockReads w),
                 {| clock := clock w; entropy := entropy w;
                    clockReads := S (clockReads w);
                    entropyReads := entropyReads w |}).

(** [Math.random().toString(36).substr(2, 9)]. *)
Definition Math_random_base36 : Run string :=
  fun w => Some (entropy w (entropyReads w),
                 {| clock := clock w; entropy := entropy w;
                    clockReads := clockReads w;
                    entropyReads := S (entropyReads w) |}).

(** [for (const a of l) out.push(f(a))]. *)
Fixpoint mapM {A B : Type} (f : A -> Run B) (l : list A) : Run (list B) :=
  match l with
  | [] => ret []
  | a :: rest =>
      b <- f a ;;
      bs <- mapM f rest ;;
      ret (b :: bs)
  end.

(** ** The collaborating modules

    What the recommendation generator imports from
    [shot-segmentation.ts], [rally-state-machine.ts] and
    [feature-extraction.ts].  Each is a function of its arguments alone
    (spec, section 5); an optional argument is an [option]. *)

Record Collaborators : Type :=
  { zoneToPosition : Z -> Position;
    segmentTrajectory :
      list TrajectoryPoint -> option (list Q) -> list ShotSegment;
    computeRallyState :
      list ShotSegment -> Z -> option Position -> RallyState;
    computeAllRallyStates :
      list ShotSegment -> option (list TimedPosition) -> list RallyState;
    getDominantPhase : list RallyState -> RallyPhase;
    getAveragePressure : list RallyState -> Q;
    findKeyMoments : list RallyState -> list Z;
    extractShotFeatures :
      ShotSegment -> RallyState -> option ShotSegment ->
      option (list TimedPosition) -> ShotFeatures;
    extractAllShotFeatures :
      list ShotSegment -> list RallyState ->
      option (list TimedPosition) -> option (list TimedPosition) ->
      list ShotFeatures }.

(** Modelled from the spec: [segmentShots] of [shot-segmentation.ts].
    Section 4.2: it returns the empty list when the trajectory has fewer
    than 2 points; otherwise the trajectory is cut at its decision points,
    which is [segmentTrajectory] of the collaborators. *)
Definition segmentShots (C : Collaborators)
    (trajectory : list TrajectoryPoint) (poseTimestamps : option (list Q))
    : list ShotSegment :=
  if (List.length trajectory <? 2)%nat then []
  else segmentTrajectory C trajectory poseTimestamps.

(** ** Recommendation generator ([recommendation-generator.ts]) *)

Section RecommendationGenerator.

Variable K : Constants.
Variable C : Collaborators.

(** [generateRecId]: the template reads the clock, then the random
    source. *)
Definition generateRecId (shotType : ShotType) (targetZone : Z)
    : Run string :=
  now <- Date_now ;;
  rnd <- Math_random_base36 ;;
  ret ("rec-" ++ ShotType_name shotType ++ "-" ++ show_Z targetZone
       ++ "-" ++ show_Z now ++ "-" ++ rnd)%string.

Definition numPoints : nat := 5.

(** [generateShotPath]: the start point, the points of the loop
    [for (let i = 1; i < numPoints; i++)], the end point. *)
Definition generateShotPath
    (contactPoint : Position) (targetZone : Z) (shotType : ShotType)
    : list PathPoint :=
  let target := zoneToPosition C targetZone in
  let heightProxy :=
    match SHOT_HEIGHT_PROXY K shotType with
    | Some h => h
    | None => 0.5
    end in
  [ {| pt_x := pos_x contactPoint; pt_y := pos_y contactPoint;
       pt_z := 0.5 |} ]
  ++ map (fun i : nat =>
            let t := inject_Z (Z.of_nat i) / inject_Z (Z.of_nat numPoints) in
            let x := pos_x contactPoint
                     + (pos_x target - pos_x contactPoint) * t in
            let y := pos_y contactPoint
                     + (pos_y target - pos_y contactPoint) * t in
            let heightBase := 0.3 in
            let heightPeak := heightProxy * 3 in
            let z := heightBase + heightPeak * 4 * t * (1 - t) in
            {| pt_x := x; pt_y := y; pt_z := z |})
         (seq 1 (numPoints - 1))
  ++ [ {| pt_x := pos_x target; pt_y := pos_y target; pt_z := 0.2 |} ].

(** [getViableShotTypes].  The phase of a rally state is one of the three
    keys of [VIABLE_SHOTS_BY_PHASE], so the [?? ...neutral] fallback of the
    lookup is never taken. *)
Definition getViableShotTypes (phase : RallyPhase) (contactZone : Z)
    : list ShotType :=
  let phaseShotTypes := VIABLE_SHOTS_BY_PHASE K phase in
  let depthIdx := (contactZone / 3)%Z in
  if (depthIdx =? 2)%Z then
    filter (includesShot [Clear; Smash; Drop; Drive; Lift]) phaseShotTypes
  else if (depthIdx =? 1)%Z then
    filter (includesShot [Drive; Drop; Net; Clear; Push]) phaseShotTypes
  else
    filter (includesShot [Net; Push; Lift; Drive]) phaseShotTypes.

(** [buildCandidateRecommendation]. *)
Definition buildCandidateRecommendation
    (shotType : ShotType) (targetZone : Z) (contactPoint : Position)
    : Run ShotRecommendation :=
  let pathPolyline := generateShotPath contactPoint targetZone shotType in
  id <- generateRecId shotType targetZone ;;
  ret {| rec_id := id;
         shotType := shotType;
         targetZone := targetZone;
         pathPolyline := pathPolyline;
         score := 0;
         rationale := [];
         confidence := 0.75 |}.

(** The target zones of [generateRecommendations]: the open zones, then
    the zones 0..8 that are not open. *)
Definition targetZones (rallyState : RallyState) : list Z :=
  openCourtZones rallyState
  ++ filter (fun z => negb (includes (openCourtZones rallyState) z))
            (map Z.of_nat (seq 0 9)).

(** [generateRecommendations]. *)
Definition generateRecommendations
    (shot : ShotSegment) (features : ShotFeatures)
    (rallyState : RallyState) : Run (list ShotRecommendation) :=
  let contactPoint :=
    match trajectorySlice shot with
    | startPoint :: _ =>
        {| pos_x := tp_x startPoint; pos_y := tp_y startPoint |}
    | [] => {| pos_x := 0.5; pos_y := 0.25 |}
    end in
  let viableShotTypes :=
    getViableShotTypes (phase rallyState) (contactZone features) in
  perType <-
    mapM (fun shotType =>
            mapM (fun targetZone =>
                    buildCandidateRecommendation
                      shotType targetZone contactPoint)
                 (firstn 5 (targetZones rallyState)))
         viableShotTypes ;;
  let candidates := List.concat perType in
  let scored :=
    scoreAndRankRecommendations K candidates features rallyState
                                (DEFAULT_SCORING_WEIGHTS K) in
  ret (firstn 3 scored).

(** [generatePerShotAnalysis]: [shots.map((shot, index) => ...)], from
    [index] on.  Reading a field of [rallyStates[index]] or
    [features[index]] throws when the entry is missing. *)
Fixpoint generatePerShotAnalysisFrom
    (index : nat) (shots : list ShotSegment)
    (rallyStates : list RallyState) (features : list ShotFeatures)
    : Run (list PerShotAnalysis) :=
  match shots with
  | [] => ret []
  | shot :: rest =>
      match nth_error rallyStates index, nth_error features index with
      | Some state, Some shotFeatures =>
          recommendations <-
            generateRecommendations shot shotFeatures state ;;
          others <-
            generatePerShotAnalysisFrom (S index) rest rallyStates features ;;
          ret ({| psa_shot := shot;
                  psa_features := shotFeatures;
                  recommendations := recommendations |} :: others)
      | _, _ => throw
      end
  end.

Definition generatePerShotAnalysis
    (shots : list ShotSegment) (rallyStates : list RallyState)
    (features : list ShotFeatures) : Run (list PerShotAnalysis) :=
  generatePerShotAnalysisFrom 0 shots rallyStates features.

(** [buildRallySummary]. *)
Definition buildRallySummary
    (shots : list PerShotAnalysis) (rallyStates : list RallyState)
    : RallySummary :=
  {| totalShots := List.length shots;
     dominantPhase := getDominantPhase C rallyStates;
     averagePressure := getAveragePressure C rallyStates;
     keyMoments := findKeyMoments C rallyStates;
     winner := Some "unknown"%string |}.

(** [analyzeRally].  [processedAt] holds the instant read by
    [new Date()], of which the field is the ISO rendering. *)
Definition analyzeRally
    (sessionId : string) (trajectory : list TrajectoryPoint)
    (poseTimestamps : option (list Q))
    (opponentPositions playerPositions : option (list TimedPosition))
    : Run RallyAnalysisResult :=
  startTime <- Date_now ;;
  let debugLogs :=
    if DEBUG_FLAG K then
      [ ("Starting analysis with " ++ show_nat (List.length trajectory)
         ++ " trajectory points")%string ]
    else [] in
  let shots := segmentShots C trajectory poseTimestamps in
  let debugLogs :=
    if DEBUG_FLAG K then
      debugLogs ++ [ ("Segmented into " ++ show_nat (List.length shots)
                      ++ " shots")%string ]
    else debugLogs in
  if (List.length shots =? 0)%nat then
    idTime <- Date_now ;;
    processed <- Date_now ;;
    endTime <- Date_now ;;
    ret {| sessionId := sessionId;
           rallyId := ("rally-" ++ show_Z idTime)%string;
           shots := [];
           summary := {| totalShots := 0;
                         dominantPhase := Neutral;
                         averagePressure := 0.5;
                         keyMoments := [];
                         winner := None |};
           metadata := {| processedAt := processed;
                          engineVersion := ENGINE_VERSION K;
                          processingTimeMs := (endTime - startTime)%Z;
                          debugLogs :=
                            if DEBUG_FLAG K then Some debugLogs
                            else None |} |}
  else
    let rallyStates := computeAllRallyStates C shots opponentPositions in
    let debugLogs :=
      if DEBUG_FLAG K then
        debugLogs ++ [ ("Computed rally states: "
                        ++ join ", " (map (fun s => RallyPhase_name (phase s))
                                          rallyStates))%string ]
      else debugLogs in
    let features :=
      extractAllShotFeatures C shots rallyStates
                             opponentPositions playerPositions in
    let debugLogs :=
      if DEBUG_FLAG K then
        debugLogs ++ [ ("Extracted features for "
                        ++ show_nat (List.length features)
                        ++ " shots")%string ]
      else debugLogs in
    perShotAnalysis <- generatePerShotAnalysis shots rallyStates features ;;
    let summary := buildRallySummary perShotAnalysis rallyStates in
    idTime <- Date_now ;;
    rnd <- Math_random_base36 ;;
    processed <- Date_now ;;
    endTime <- Date_now ;;
    ret {| sessionId := sessionId;
           rallyId := ("rally-" ++ show_Z idTime ++ "-" ++ rnd)%string;
           shots := perShotAnalysis;
           summary := summary;
           metadata := {| processedAt := processed;
                          engineVersion := ENGINE_VERSION K;
                          processingTimeMs := (endTime - startTime)%Z;
                          debugLogs :=
                            if DEBUG_FLAG K then Some debugLogs
                            else None |} |}.

(** [generateRecommendationsForShot]. *)
Definition generateRecommendationsForShot
    (trajectory : list TrajectoryPoint) (shotIndex : Z)
    (opponentPosition : option Position) : Run (list ShotRecommendation) :=
  let shots := segmentShots C trajectory None in
  if (shotIndex <? 0)%Z || (shotIndex >=? Z.of_nat (List.length shots))%Z
  then ret []
  else
    let state := computeRallyState C shots shotIndex opponentPosition in
    let previousShot :=
      if (shotIndex >? 0)%Z
      then nth_error shots (Z.to_nat (shotIndex - 1))
      else None in
    match nth_error shots (Z.to_nat shotIndex) with
    | None => throw
    | Some shot =>
        let features :=
          extractShotFeatures C shot state previousShot
            (match opponentPosition with
             | Some p => Some [ {| tpos_x := pos_x p; tpos_y := pos_y p;
                                   tpos_timestamp := startTime shot |} ]
             | None => None
             end) in
        generateRecommendations shot features state
    end.

End RecommendationGenerator.

(** ** Scoring engine: tactical value and comparison *)

(** [getPhaseAlignment].  Every phase and shot type has an entry in the
    table, so the [?? 0.5] fallback is never taken. *)
Definition getPhaseAlignment (shotType : ShotType) (phase : RallyPhase) : Q :=
  match phase with
  | Attack =>
      match shotType with
      | Smash => 1.0 | Drop => 0.9 | Net => 0.8 | Drive => 0.6
      | Clear => 0.3 | Lift => 0.1 | Push => 0.5 | Serve => 0.5
      | Unknown => 0.5
      end
  | Neutral =>
      match shotType with
      | Smash => 0.6 | Drop => 0.7 | Net => 0.7 | Drive => 0.8
      | Clear => 0.7 | Lift => 0.5 | Push => 0.6 | Serve => 0.5
      | Unknown => 0.5
      end
  | Defense =>
      match shotType with
      | Smash => 0.2 | Drop => 0.3 | Net => 0.4 | Drive => 0.6
      | Clear => 0.9 | Lift => 1.0 | Push => 0.5 | Serve => 0.5
      | Unknown => 0.5
      end
  end.

(** [calculateTacticalValue]. *)
Definition calculateTacticalValue (K : Constants)
    (recommendation : ShotRecommendation) (features : ShotFeatures)
    (rallyState : RallyState) : Q :=
  let value := 0 in
  let movement :=
    calculateMovementPressureScore K (targetZone recommendation) features in
  let value := value + movement * 0.3 in
  let openCourt :=
    calculateOpenCourtScore (targetZone recommendation) rallyState in
  let value := value + openCourt * 0.3 in
  let phaseAlignment :=
    getPhaseAlignment (shotType recommendation) (phase rallyState) in
  let value := value + phaseAlignment * 0.2 in
  let risk := assessShotRisk K (shotType recommendation) rallyState in
  let value := value - risk * 0.1 in
  let angle :=
    calculateAngleExposure K (targetZone recommendation)
                           (shotType recommendation) in
  let value := value - angle * 0.1 in
  Math_min 1 (Math_max 0 value).

(** [compareRecommendations]. *)
Definition compareRecommendations (rec1 rec2 : ShotRecommendation) : string :=
  let scoreDiff := (score rec1 - score rec2)%Z in
  let comparison :=
    if (Z.abs scoreDiff <? 5)%Z then
      [ "Both options are similarly viable."%string ]
    else if (scoreDiff >? 0)%Z then
      [ (ShotType_name (shotType rec1) ++ " scores " ++ show_Z scoreDiff
         ++ " points higher.")%string ]
    else
      [ (ShotType_name (shotType rec2) ++ " scores " ++ show_Z (- scoreDiff)
         ++ " points higher.")%string ] in
  let rec1Positive := filter (fun r => gt (impact r) 0) (rationale rec1) in
  let rec2Positive := filter (fun r => gt (impact r) 0) (rationale rec2) in
  let comparison :=
    if (List.length rec2Positive <? List.length rec1Positive)%nat then
      comparison ++ [ (ShotType_name (shotType rec1)
                       ++ " has more tactical advantages.")%string ]
    else if (List.length rec1Positive <? List.length rec2Positive)%nat then
      comparison ++ [ (ShotType_name (shotType rec2)
                       ++ " has more tactical advantages.")%string ]
    else comparison in
  join " " comparison.

(** ** Recommendation generator: legacy conversion *)

(** [convertLegacyTrajectory]: the pair of [trajectory] and
    [legacyRecommendations]. *)
Definition convertLegacyTrajectory
    (originalTrajectory refinedTrajectory : list TrajectoryPoint)
    : list TrajectoryPoint * list ShotRecommendation :=
  let trajectory := originalTrajectory in
  let legacyPath :=
    map (fun p => {| pt_x := tp_x p; pt_y := tp_y p; pt_z := 1.0 |})
        refinedTrajectory in
  let legacyRecommendations :=
    [ {| rec_id := "legacy-optimal";
         shotType := Clear;
         targetZone := 7;
         pathPolyline := legacyPath;
         score := 85;
         rationale :=
           [ {| rat_type := open_court;
                description := "AI-suggested optimal placements";
                impact := 0.8 |} ];
         confidence := 0.85 |} ] in
  (trajectory, legacyRecommendations).

(** ** Playback engine

    The refs of a [PlaybackEngineRefs] are mutable cells; a method that
    writes them is a function to the engine it leaves, paired with the
    value it returns when it returns one. *)

Inductive TimeScale : Type := Quarter | Half | Normal | Double.

Definition TimeScale_value (s : TimeScale) : Q :=
  match s with
  | Quarter => 0.25 | Half => 0.5 | Normal => 1 | Double => 2
  end.

Inductive ActiveView : Type := View2d | View3d.

Record PlaybackState : Type :=
  { ps_playing : bool;
    ps_timeScale : TimeScale;
    ps_t : Q;
    ps_activeView : ActiveView }.

Record PlaybackEngineRefs : Type :=
  { playingRef : bool;
    timeScaleRef : TimeScale;
    tRef : Q;
    activeViewRef : ActiveView;
    lastTimestampRef : Q }.

(** [createPlaybackEngine]. *)
Definition createPlaybackEngine : PlaybackEngineRefs :=
  {| playingRef := true;
     timeScaleRef := Normal;
     tRef := 0;
     activeViewRef := View2d;
     lastTimestampRef := 0 |}.

(** [getPlaybackState]. *)
Definition getPlaybackState (engine : PlaybackEngineRefs) : PlaybackState :=
  {| ps_playing := playingRef engine;
     ps_timeScale := timeScaleRef engine;
     ps_t := tRef engine;
     ps_activeView := activeViewRef engine |}.

(** [updatePlaybackTime]: the returned time and the engine left.  In
    [lastTimestampRef.current || timestamp] the left operand is falsy when
    it is 0. *)
Definition updatePlaybackTime (engine : PlaybackEngineRefs) (timestamp : Q)
    : Q * PlaybackEngineRefs :=
  if negb (playingRef engine) then
    (tRef engine,
     {| playingRef := playingRef engine;
        timeScaleRef := timeScaleRef engine;
        tRef := tRef engine;
        activeViewRef := activeViewRef engine;
        lastTimestampRef := timestamp |})
  else
    let lastTimestamp :=
      if Qeq_bool (lastTimestampRef engine) 0 then timestamp
      else lastTimestampRef engine in
    let dt := (timestamp - lastTimestamp) / 1000 in
    let increment := (dt * TimeScale_value (timeScaleRef engine)) / 10 in
    let t := tRef engine + increment in
    let t := if Qle_bool 1 t then 0 else t in
    (t,
     {| playingRef := playingRef engine;
        timeScaleRef := timeScaleRef engine;
        tRef := t;
        activeViewRef := activeViewRef engine;
        lastTimestampRef := timestamp |}).

(** The methods of [PlaybackEngine]. *)
Module PlaybackEngine.

Definition play (engine : PlaybackEngineRefs) : PlaybackEngineRefs :=
  {| playingRef := true;
     timeScaleRef := timeScaleRef engine;
     tRef := tRef engine;
     activeViewRef := activeViewRef engine;
     lastTimestampRef := lastTimestampRef engine |}.

Definition pause (engine : PlaybackEngineRefs) : PlaybackEngineRefs :=
  {| playingRef := false;
     timeScaleRef := timeScaleRef engine;
     tRef := tRef engine;
     activeViewRef := activeViewRef engine;
     lastTimestampRef := lastTimestampRef engine |}.

Definition toggle (engine : PlaybackEngineRefs)
    : bool * PlaybackEngineRefs :=
  let playing := negb (playingRef engine) in
  (playing,
   {| playingRef := playing;
      timeScaleRef := timeScaleRef engine;
      tRef := tRef engine;
      activeViewRef := activeViewRef engine;
      lastTimestampRef := lastTimestampRef engine |}).

Definition reset (engine : PlaybackEngineRefs) : PlaybackEngineRefs :=
  {| playingRef := playingRef engine;
     timeScaleRef := timeScaleRef engine;
     tRef := 0;
     activeViewRef := activeViewRef engine;
     lastTimestampRef := 0 |}.

Definition setSpeed (engine : PlaybackEngineRefs) (speed : TimeScale)
    : PlaybackEngineRefs :=
  {| playingRef := playingRef engine;
     timeScaleRef := speed;
     tRef := tRef engine;
     activeViewRef := activeViewRef engine;
     lastTimestampRef := lastTimestampRef engine |}.

Definition setActiveView (engine : PlaybackEngineRefs) (view : ActiveView)
    : PlaybackEngineRefs :=
  {| playingRef := playingRef engine;
     timeScaleRef := timeScaleRef engine;
     tRef := tRef engine;
     activeViewRef := view;
     lastTimestampRef := lastTimestampRef engine |}.

Definition step (engine : PlaybackEngineRefs) (delta : Q)
    : PlaybackEngineRefs :=
  {| playingRef := playingRef engine;
     timeScaleRef := timeScaleRef engine;
     tRef := Math_max 0 (Math_min 1 (tRef engine + delta));
     activeViewRef := activeViewRef engine;
     lastTimestampRef := lastTimestampRef engine |}.

End PlaybackEngine.

(** The engine after the animation frames at [timestamps], in order. *)
Definition runFrames (engine : PlaybackEngineRefs) (timestamps : list Q)
    : PlaybackEngineRefs :=
  fold_left (fun e ts => snd (updatePlaybackTime e ts)) timestamps engine.

(** ** The zone grid

    Zone ids 0..8 index a 3x3 grid by rows: the row of a zone is its depth
    third, the column its width third. *)

Definition inGrid (z : Z) : bool := (0 <=? z)%Z && (z <=? 8)%Z.

Definition zoneRow (z : Z) : Z := (z / 3)%Z.
Definition zoneCol (z : Z) : Z := (z mod 3)%Z.

(** Two zones of the grid that share an edge: neighbours in a row or in a
    column. *)
Definition sharesEdge (a b : Z) : bool :=
  inGrid a && inGrid b
  && (((zoneRow a =? zoneRow b)%Z && (Z.abs (zoneCol a - zoneCol b) =? 1)%Z)
      || ((zoneCol a =? zoneCol b)%Z
          && (Z.abs (zoneRow a - zoneRow b) =? 1)%Z)).

(** Modelled from the spec: [isAdjacentZone] of [rally-state-machine.ts].
    Section 4.1: true when the zones are equal, when they share a grid
    edge, and for any zone paired with the centre zone 4, its diagonals
    included; false for the other pairs, such as the corner pairs 0-8 and
    2-6. *)
Definition isAdjacentZone (a b : Z) : bool :=
  (a =? b)%Z || sharesEdge a b
  || (inGrid a && inGrid b && ((a =? 4)%Z || (b =? 4)%Z)).

(** ** A concrete configuration

    The values of [constants.ts] and the bodies of the collaborating modules
    are not fixed by the two embedded modules.  To run the model on concrete
    inputs, [Fixture] supplies one configuration in line with the engine's
    documentation: the scoring weights of its README (20, 25, 15, 10),
    repertoires that follow the canonical tactic of each phase, the highest
    arc for clears and the flattest for drives. *)

Module Fixture.

(** Grid distance between two zones, normalised by the largest one. *)
Definition gridDistance (a b : Z) : Q :=
  inject_Z (Z.abs (a / 3 - b / 3) + Z.abs (a mod 3 - b mod 3)) / 4.

Definition constants : Constants :=
  {| DEBUG_FLAG := false;
     ENGINE_VERSION := "1.0.0";
     VIABLE_SHOTS_BY_PHASE := fun p =>
       match p with
       | Attack => [Smash; Drop; Net; Drive]
       | Neutral => [Clear; Drop; Drive; Net; Lift]
       | Defense => [Clear; Lift; Drive; Push]
       end;
     SHOT_HEIGHT_PROXY := fun s =>
       match s with
       | Clear => Some 0.9 | Lift => Some 0.8 | Serve => Some 0.6
       | Drop => Some 0.5 | Net => Some 0.3 | Push => Some 0.3
       | Smash => Some 0.3 | Drive => Some 0.2 | Unknown => None
       end;
     DEFAULT_SCORING_WEIGHTS :=
       {| movementPressure := 20; openCourt := 25;
          riskUnderPressure := 15; angleExposure := 10 |};
     BASE_SCORE := 50;
     SHOT_RISK_LEVELS := fun s =>
       match s with
       | Smash => Some 0.7 | Net => Some 0.6 | Drop => Some 0.5
       | Drive => Some 0.4 | Push => Some 0.3 | Serve => Some 0.3
       | Clear => Some 0.2 | Lift => Some 0.2 | Unknown => None
       end;
     ZONE_DISTANCES := fun a =>
       if inGrid a
       then Some (fun b => if inGrid b then Some (gridDistance a b)
                           else None)
       else None;
     ANGLE_RISK_BY_ZONE := fun z =>
       if inGrid z
       then Some (if (z =? 4)%Z then 0.6
                  else if (z mod 2 =? 0)%Z then 0.2 else 0.4)
       else None;
     PRESSURE_THRESHOLDS := {| thr_attack := 0.3; thr_defense := 0.7 |} |}.

(** Modelled from the spec: [zoneToPosition] of [rally-state-machine.ts].
    Section 4.1: the centre of the zone's rectangle in the 3x3 grid of the
    half court, and the centre zone's coordinates for an id outside
    0..8. *)
Definition zoneCenter (zone : Z) : Position :=
  if inGrid zone then
    {| pos_x := (inject_Z (2 * (zone mod 3) + 1)) / 6;
       pos_y := 0.5 + (inject_Z (2 * (zone / 3) + 1)) / 12 |}
  else {| pos_x := 0.5; pos_y := 0.75 |}.

Definition neutralState : RallyState :=
  {| phase := Neutral; initiative := UnknownInitiative; pressure := 0.5;
     openCourtZones := [0; 2; 6; 8]%Z; timestamp := 0 |}.

(** A segmenter that finds no decision point: the whole trajectory is one
    shot. *)
Definition wholeTrajectory (trajectory : list TrajectoryPoint)
    (_ : option (list Q)) : list ShotSegment :=
  [ {| shotIndex := 0;
       seg_type := Unknown;
       startTime := match trajectory with
                    | p :: _ => tp_timestamp p
                    | [] => 0
                    end;
       endTime := tp_timestamp
                    (last trajectory
                          {| tp_x := 0; tp_y := 0; tp_timestamp := 0 |});
       trajectorySlice := trajectory;
       player := match trajectory with
                 | p :: _ => if lt (tp_y p) 0.5 then Near else Far
                 | [] => Near
                 end |} ].

Definition featuresOf (shot : ShotSegment) (state : RallyState)
    : ShotFeatures :=
  {| contactZone := 4; landingZone := 7;
     shuttleSpeedProxy := 0.5; shuttleHeightProxy := 0.5;
     opponentMovementDistance := 0; opponentDirectionChange := 0;
     recoveryQuality := 0.5; rallyState := state |}.

Definition collaborators : Collaborators :=
  {| zoneToPosition := zoneCenter;
     segmentTrajectory := wholeTrajectory;
     computeRallyState := fun _ _ _ => neutralState;
     computeAllRallyStates := fun shots _ => map (fun _ => neutralState) shots;
     getDominantPhase := fun _ => Neutral;
     getAveragePressure := fun _ => 0.5;
     findKeyMoments := fun _ => [];
     extractShotFeatures := fun shot state _ _ => featuresOf shot state;
     extractAllShotFeatures := fun shots states _ _ =>
       map (fun shot => featuresOf shot neutralState) shots |}.

Definition world : World :=
  {| clock := fun n => (1700000000000 + Z.of_nat n)%Z;
     entropy := fun n => show_nat n;
     clockReads := 0;
     entropyReads := 0 |}.

(** The shot, features and state of the generator's unit tests. *)
Definition mockShot : ShotSegment :=
  {| shotIndex := 0; seg_type := Clear; startTime := 0; endTime := 1000;
     trajectorySlice :=
       [ {| tp_x := 0.5; tp_y := 0.3; tp_timestamp := 0 |};
         {| tp_x := 0.5; tp_y := 0.7; tp_timestamp := 1000 |} ];
     player := Near |}.

Definition mockRallyState (p : RallyPhase) (pr : Q) : RallyState :=
  {| phase := p; initiative := UnknownInitiative; pressure := pr;
     openCourtZones := [0; 2; 6; 8]%Z; timestamp := 0 |}.

Definition mockFeatures : ShotFeatures :=
  {| contactZone := 4; landingZone := 7;
     shuttleSpeedProxy := 0.5; shuttleHeightProxy := 0.6;
     opponentMovementDistance := 0.4;
     opponentDirectionChange := Math_PI / 4;
     recoveryQuality := 0.3;
     rallyState := mockRallyState Neutral 0.5 |}.

End Fixture.

(** ** Notions used in the statements *)

(** The height factor [generateShotPath] reads for a shot type. *)
Definition heightFactor (K : Constants) (s : ShotType) : Q :=
  match SHOT_HEIGHT_PROXY K s with Some h => h | None => 0.5 end.

(** The base risk [assessShotRisk] reads for a shot type. *)
Definition riskLevel (K : Constants) (s : ShotType) : Q :=
  match SHOT_RISK_LEVELS K s with Some r => r | None => 0.5 end.

(** A recommendation with its opaque id blanked. *)
Definition forgetId (r : ShotRecommendation) : ShotRecommendation :=
  {| rec_id := EmptyString;
     shotType := shotType r;
     targetZone := targetZone r;
     pathPolyline := pathPolyline r;
     score := score r;
     rationale := rationale r;
     confidence := confidence r |}.

(** What [generateRecommendations] returns, ids blanked, as a function of
    its arguments alone. *)
Definition recommendationsOutline (K : Constants) (C : Collaborators)
    (shot : ShotSegment) (features : ShotFeatures) (rallyState : RallyState)
    : list ShotRecommendation :=
  let contactPoint :=
    match trajectorySlice shot with
    | startPoint :: _ =>
        {| pos_x := tp_x startPoint; pos_y := tp_y startPoint |}
    | [] => {| pos_x := 0.5; pos_y := 0.25 |}
    end in
  let outline shotType targetZone :=
    {| rec_id := EmptyString;
       shotType := shotType;
       targetZone := targetZone;
       pathPolyline := generateShotPath K C contactPoint targetZone shotType;
       score := 0;
       rationale := [];
       confidence := 0.75 |} in
  let candidates :=
    List.concat
      (map (fun shotType =>
              map (outline shotType) (firstn 5 (targetZones rallyState)))
           (getViableShotTypes K (phase rallyState) (contactZone features))) in
  firstn 3 (scoreAndRankRecommendations K candidates features rallyState
                                        (DEFAULT_SCORING_WEIGHTS K)).

(** A per-shot analysis with the ids of its recommendations blanked. *)
Definition forgetIds (a : PerShotAnalysis) : PerShotAnalysis :=
  {| psa_shot := psa_shot a;
     psa_features := psa_features a;
     recommendations := map forgetId (recommendations a) |}.

(** A result with what depends on the clock or the random source blanked:
    the rally id, the recommendation ids, [processedAt] and
    [processingTimeMs]. *)
Definition forgetVolatile (r : RallyAnalysisResult) : RallyAnalysisResult :=
  {| sessionId := sessionId r;
     rallyId := EmptyString;
     shots := map forgetIds (shots r);
     summary := summary r;
     metadata := {| processedAt := 0;
                    engineVersion := engineVersion (metadata r);
                    processingTimeMs := 0;
                    debugLogs := debugLogs (metadata r) |} |}.

(** The outcome of a run, world dropped: the value, or a throw. *)
Definition outcome {A : Type} (run : option (A * World)) : option A :=
  option_map fst run.

(** The contact point [generateRecommendations] takes for a shot: the
    first point of its slice, or (0.5, 0.25) for an empty slice. *)
Definition contactPointOf (shot : ShotSegment) : Position :=
  match trajectorySlice shot with
  | startPoint :: _ =>
      {| pos_x := tp_x startPoint; pos_y := tp_y startPoint |}
  | [] => {| pos_x := 0.5; pos_y := 0.25 |}
  end.

(** The five zones [generateRecommendations] builds candidates for. *)
Definition candidateZones (rallyState : RallyState) : list Z :=
  firstn 5 (targetZones rallyState).

(** A point of the unit square, the normalised court. *)
Definition onCourt (x y : Q) : Prop := 0 <= x <= 1 /\ 0 <= y <= 1.

(** A call on a playback engine: an animation frame at a timestamp, or one
    of the methods of [PlaybackEngine]. *)
Inductive PlaybackCall : Type :=
  | Frame (timestamp : Q)
  | Play
  | Pause
  | Toggle
  | Reset
  | SetSpeed (speed : TimeScale)
  | SetActiveView (view : ActiveView)
  | Step (delta : Q).

(** The engine a call leaves. *)
Definition applyCall (engine : PlaybackEngineRefs) (c : PlaybackCall)
    : PlaybackEngineRefs :=
  match c with
  | Frame timestamp => snd (updatePlaybackTime engine timestamp)
  | Play => PlaybackEngine.play engine
  | Pause => PlaybackEngine.pause engine
  | Toggle => snd (PlaybackEngine.toggle engine)
  | Reset => PlaybackEngine.reset engine
  | SetSpeed speed => PlaybackEngine.setSpeed engine speed
  | SetActiveView view => PlaybackEngine.setActiveView engine view
  | Step delta => PlaybackEngine.step engine delta
  end.

Definition runCalls (engine : PlaybackEngineRefs) (calls : list PlaybackCall)
    : PlaybackEngineRefs :=
  fold_left applyCall calls engine.

(** The frames of a sequence of calls have timestamps that never go back,
    starting from [last]; a reset restarts them from 0. *)
Fixpoint framesNeverGoBack (last : Q) (calls : list PlaybackCall) : Prop :=
  match calls with
  | [] => True
  | Frame timestamp :: rest =>
      last <= timestamp /\ framesNeverGoBack timestamp rest
  | Reset :: rest => framesNeverGoBack 0 rest
  | _ :: rest => framesNeverGoBack last rest
  end.

(** A clock that never goes back. *)
Definition monotoneClock (w : World) : Prop :=
  forall i j : nat, (i <= j)%nat -> (clock w i <= clock w j)%Z.

(** [w'] is [w] after some reads: the same clock and random source, read
    no fewer times. *)
Definition laterWorld (w w' : World) : Prop :=
  clock w' = clock w /\ entropy w' = entropy w
  /\ (clockReads w <= clockReads w')%nat
  /\ (entropyReads w <= entropyReads w')%nat.

(** A computation that only reads the world forward: when it returns, the
    world it leaves is a later world. *)
Definition readsForward {A : Type} (m : Run A) : Prop :=
  forall (w : World) (a : A) (w' : World),
    m w = Some (a, w') -> laterWorld w w'.

(** * Properties *)

(** ** JavaScript arithmetic *)

Lemma gt_true a b : gt a b = true <-> b < a.
Proof.
  unfold gt. rewrite negb_true_iff, <- not_true_iff_false, Qle_bool_iff.
  split; [apply Qnot_le_lt | apply Qlt_not_le].
Qed.

Lemma Math_max_lub a b : a <= Math_max a b /\ b <= Math_max a b.
Proof.
  unfold Math_max. destruct (Qle_bool a b) eqn:E.
  - apply Qle_bool_iff in E. split; [exact E | apply Qle_refl].
  - split; [apply Qle_refl |].
    apply Qlt_le_weak, Qnot_le_lt. intro H.
    apply Qle_bool_iff in H. congruence.
Qed.

Lemma Math_min_glb a b : Math_min a b <= a /\ Math_min a b <= b.
Proof.
  unfold Math_min. destruct (Qle_bool a b) eqn:E.
  - apply Qle_bool_iff in E. split; [apply Qle_refl | exact E].
  - split; [| apply Qle_refl].
    apply Qlt_le_weak, Qnot_le_lt. intro H.
    apply Qle_bool_iff in H. congruence.
Qed.

Lemma Math_max_cases a b :
  (a <= b /\ Math_max a b = b) \/ (b < a /\ Math_max a b = a).
Proof.
  unfold Math_max. destruct (Qle_bool a b) eqn:E.
  - left. apply Qle_bool_iff in E. auto.
  - right. split; [| reflexivity].
    apply Qnot_le_lt. intro H. apply Qle_bool_iff in H. congruence.
Qed.

Lemma Math_min_cases a b :
  (a <= b /\ Math_min a b = a) \/ (b < a /\ Math_min a b = b).
Proof.
  unfold Math_min. destruct (Qle_bool a b) eqn:E.
  - left. apply Qle_bool_iff in E. auto.
  - right. split; [| reflexivity].
    apply Qnot_le_lt. intro H. apply Qle_bool_iff in H. congruence.
Qed.

(** A value clamped by [Math.min(hi, Math.max(lo, x))] lies in [lo, hi]
    as soon as [lo <= hi]. *)
Lemma clamp_range lo hi x :
  lo <= hi -> lo <= Math_min hi (Math_max lo x) <= hi.
Proof.
  intros Hlh.
  destruct (Math_min_cases hi (Math_max lo x)) as [[H1 ->] | [H1 ->]].
  - split; [exact Hlh | apply Qle_refl].
  - split; [apply Math_max_lub | apply Qlt_le_weak, H1].
Qed.

(** Case analysis on every [Math.min] and [Math.max] of a goal. *)
Ltac case_minmax :=
  repeat match goal with
  | |- context [Math_max ?a ?b] =>
      let H := fresh "Hc" in let E := fresh "Ec" in
      destruct (Math_max_cases a b) as [[H E] | [H E]];
      rewrite E in *; clear E
  | |- context [Math_min ?a ?b] =>
      let H := fresh "Hc" in let E := fresh "Ec" in
      destruct (Math_min_cases a b) as [[H E] | [H E]];
      rewrite E in *; clear E
  | _ : context [Math_max ?a ?b] |- _ =>
      let H := fresh "Hc" in let E := fresh "Ec" in
      destruct (Math_max_cases a b) as [[H E] | [H E]];
      rewrite E in *; clear E
  | _ : context [Math_min ?a ?b] |- _ =>
      let H := fresh "Hc" in let E := fresh "Ec" in
      destruct (Math_min_cases a b) as [[H E] | [H E]];
      rewrite E in *; clear E
  end.

Lemma clamp_mono lo hi x y :
  x <= y -> Math_min hi (Math_max lo x) <= Math_min hi (Math_max lo y).
Proof.
  intros Hxy. case_minmax; lra.
Qed.


Lemma Math_round_range (lo hi : Z) x :
  inject_Z lo <= x <= inject_Z hi -> (lo <= Math_round x <= hi)%Z.
Proof.
  intros [Hlo Hhi]. unfold Math_round. split.
  - rewrite <- (Qfloor_Z lo). apply Qfloor_resp_le.
    apply Qle_trans with x; [exact Hlo |].
    rewrite <- (Qplus_0_r x) at 1. apply Qplus_le_r. discriminate.
  - assert (Hlt : (Qfloor (x + (1 # 2)) < hi + 1)%Z).
    { rewrite Zlt_Qlt. apply Qle_lt_trans with (x + (1 # 2)).
      - apply Qfloor_le.
      - rewrite inject_Z_plus, (Qplus_comm x), (Qplus_comm (inject_Z hi)).
        apply Qplus_lt_le_compat; [reflexivity | exact Hhi]. }
    lia.
Qed.

(** ** Scoring a candidate *)

(** C10: frame property of [scoreRecommendation] -- the id, the shot type,
    the target zone and the path polyline of the returned recommendation
    are those of the candidate; only score, rationale and confidence are
    computed anew. *)
Theorem scoreRecommendation_keeps_candidate_fields
    (K : Constants) (candidate : ShotRecommendation)
    (features : ShotFeatures) (rallyState : RallyState)
    (weights : ScoringWeights) :
  let scored := scoreRecommendation K candidate features rallyState weights in
  rec_id scored = rec_id candidate
  /\ shotType scored = shotType candidate
  /\ targetZone scored = targetZone candidate
  /\ pathPolyline scored = pathPolyline candidate.
Proof.
  cbv zeta. unfold scoreRecommendation.
  cbn [rec_id shotType targetZone pathPolyline].
  repeat split.
Qed.

Lemma calculateConfidence_range
    (K : Constants) (s : ShotType) (st : RallyState) (f : ShotFeatures) :
  0.5 <= calculateConfidence K s st f <= 1.
Proof.
  unfold calculateConfidence. apply clamp_range. discriminate.
Qed.

(** C4: the recommendation returned by [scoreRecommendation] has its score
    in [0,100] and its confidence in [0.5,1], whatever the candidate, the
    features, the rally state and the weights. *)
Theorem scoreRecommendation_score_and_confidence_ranges
    (K : Constants) (candidate : ShotRecommendation)
    (features : ShotFeatures) (rallyState : RallyState)
    (weights : ScoringWeights) :
  let scored := scoreRecommendation K candidate features rallyState weights in
  (0 <= score scored <= 100)%Z
  /\ 0.5 <= confidence scored <= 1.
Proof.
  cbv zeta. split.
  - unfold scoreRecommendation. cbn [score].
    apply (Math_round_range 0 100).
    apply (clamp_range MIN_SCORE MAX_SCORE). discriminate.
  - unfold scoreRecommendation. cbn [confidence].
    apply calculateConfidence_range.
Qed.

(** ** Open-court score *)

Lemma includes_true (l : list Z) (z : Z) : includes l z = true <-> In z l.
Proof.
  unfold includes. rewrite existsb_exists. split.
  - intros (y & Hy & E). apply Z.eqb_eq in E. subst. exact Hy.
  - intros H. exists z. split; [exact H | apply Z.eqb_refl].
Qed.

Lemma sharesEdge_id_distance (a b : Z) :
  sharesEdge a b = true -> Z.abs (a - b) = 1%Z \/ Z.abs (a - b) = 3%Z.
Proof.
  unfold sharesEdge, inGrid, zoneRow, zoneCol.
  rewrite !andb_true_iff, orb_true_iff, !andb_true_iff.
  rewrite !Z.leb_le, !Z.eqb_eq.
  intros [[[Ha0 Ha8] [Hb0 Hb8]] H].
  pose proof (Z.div_mod a 3 ltac:(lia)) as Da.
  pose proof (Z.div_mod b 3 ltac:(lia)) as Db.
  pose proof (Z.mod_pos_bound a 3 ltac:(lia)) as Ma.
  pose proof (Z.mod_pos_bound b 3 ltac:(lia)) as Mb.
  destruct H as [[Hr Hc] | [Hc Hr]]; lia.
Qed.

(** The claim about the partial credit, with the adjacency relation of the
    zone mapper, fails: zone 4 is adjacent to the open corner 0 (a diagonal of
    the centre), yet the score of target 4 is 0.1, not 0.4. *)
Lemma calculateOpenCourtScore_ignores_center_diagonals :
  ~ (forall (targetZone : Z) (rallyState : RallyState),
        includes (openCourtZones rallyState) targetZone = false ->
        (exists openZone, In openZone (openCourtZones rallyState)
                          /\ isAdjacentZone targetZone openZone = true) ->
        calculateOpenCourtScore targetZone rallyState == 0.4).
Proof.
  intros H.
  specialize (H 4%Z {| phase := Neutral; initiative := UnknownInitiative;
                       pressure := 0.5; openCourtZones := [0%Z];
                       timestamp := 0 |} eq_refl).
  assert (E : calculateOpenCourtScore 4 {| phase := Neutral;
                initiative := UnknownInitiative; pressure := 0.5;
                openCourtZones := [0%Z]; timestamp := 0 |} == 0.4).
  { apply H. exists 0%Z. split; [left; reflexivity | reflexivity]. }
  vm_compute in E. discriminate E.
Qed.

(** C6 (amended): [calculateOpenCourtScore] returns 1 for an open corner
    zone (0, 2, 6, 8) and 0.8 for any other open zone; for a target that is
    not open it returns 0.4 when some open zone shares a grid edge with the
    target, and 0.1 when no open zone has an id at distance 1 or 3 from the
    target's.  The diagonals of the centre zone earn no partial credit. *)
Theorem calculateOpenCourtScore_cases
    (targetZone : Z) (rallyState : RallyState) :
  (In targetZone (openCourtZones rallyState) ->
     0.8 <= calculateOpenCourtScore targetZone rallyState
     /\ calculateOpenCourtScore targetZone rallyState
        == (if includes [0; 2; 6; 8]%Z targetZone then 1 else 0.8))
  /\ (~ In targetZone (openCourtZones rallyState) ->
      (exists openZone, In openZone (openCourtZones rallyState)
                        /\ sharesEdge targetZone openZone = true) ->
      calculateOpenCourtScore targetZone rallyState == 0.4)
  /\ (~ In targetZone (openCourtZones rallyState) ->
      (forall openZone, In openZone (openCourtZones rallyState) ->
         Z.abs (targetZone - openZone) <> 1%Z
         /\ Z.abs (targetZone - openZone) <> 3%Z) ->
      calculateOpenCourtScore targetZone rallyState == 0.1).
Proof.
  unfold calculateOpenCourtScore. repeat split.
  - apply includes_true in H. rewrite H.
    destruct (includes [0; 2; 6; 8]%Z targetZone); vm_compute; discriminate.
  - apply includes_true in H. rewrite H.
    destruct (includes [0; 2; 6; 8]%Z targetZone); reflexivity.
  - intros Hnot (openZone & Hin & Hedge).
    rewrite <- includes_true in Hnot. apply not_true_is_false in Hnot.
    rewrite Hnot.
    destruct (existsb _ (openCourtZones rallyState)) eqn:E; [reflexivity |].
    exfalso. apply not_true_iff_false in E. apply E.
    apply existsb_exists. exists openZone. split; [exact Hin |].
    cbv zeta. apply orb_true_iff. rewrite !Z.eqb_eq.
    apply sharesEdge_id_distance, Hedge.
  - intros Hnot Hfar.
    rewrite <- includes_true in Hnot. apply not_true_is_false in Hnot.
    rewrite Hnot.
    destruct (existsb _ (openCourtZones rallyState)) eqn:E; [| reflexivity].
    exfalso. apply existsb_exists in E. destruct E as (o & Hin & Ho).
    cbv zeta in Ho. apply orb_true_iff in Ho. rewrite !Z.eqb_eq in Ho.
    destruct (Hfar o Hin) as [H1 H3]. tauto.
Qed.

(** The three cases of [calculateOpenCourtScore_cases] on the corners-open
    default: an open corner, an edge neighbour of an open corner, and the
    centre zone. *)
Lemma calculateOpenCourtScore_cases_witness :
  calculateOpenCourtScore 0 (Fixture.mockRallyState Neutral 0.5) == 1
  /\ calculateOpenCourtScore 1 (Fixture.mockRallyState Neutral 0.5) == 0.4
  /\ calculateOpenCourtScore 4 (Fixture.mockRallyState Neutral 0.5) == 0.1.
Proof.
  pose proof (calculateOpenCourtScore_cases
                0 (Fixture.mockRallyState Neutral 0.5)) as (H0 & _ & _).
  pose proof (calculateOpenCourtScore_cases
                1 (Fixture.mockRallyState Neutral 0.5)) as (_ & H1 & _).
  pose proof (calculateOpenCourtScore_cases
                4 (Fixture.mockRallyState Neutral 0.5)) as (_ & _ & H4).
  split; [| split].
  - apply H0. simpl. auto.
  - apply H1.
    + simpl. intros [H | [H | [H | [H | []]]]]; discriminate H.
    + exists 0%Z. split; [simpl; auto | reflexivity].
  - apply H4.
    + simpl. intros [H | [H | [H | [H | []]]]]; discriminate H.
    + simpl. intros o [H | [H | [H | [H | []]]]]; subst o; split; discriminate.
Defined.

(** ** Viable shot types *)



(** The allow-lists go beyond that comment in two places: the back-court
    list contains [lift] and the mid-court list contains [push], which the
    comment gives to the front court only.  A lift listed for a phase is
    offered from the back court, and a push from the mid court. *)
Lemma getViableShotTypes_lift_from_back_push_from_mid
    (K : Constants) (phase : RallyPhase) (contactZone : Z) :
  (In Lift (VIABLE_SHOTS_BY_PHASE K phase) -> zoneRow contactZone = 2%Z ->
     In Lift (getViableShotTypes K phase contactZone))
  /\ (In Push (VIABLE_SHOTS_BY_PHASE K phase) -> zoneRow contactZone = 1%Z ->
        In Push (getViableShotTypes K phase contactZone)).
Proof.
  unfold getViableShotTypes, zoneRow.
  split; intros Hin ->; simpl; apply filter_In;
    (split; [exact Hin | reflexivity]).
Qed.




(** ** Flight path *)

(** The claim of five interior points fails: the loop runs for i = 1..4, so
    a path has six points, four of them between the endpoints. *)
Lemma generateShotPath_has_six_points :
  ~ (List.length
       (generateShotPath Fixture.constants Fixture.collaborators
                         {| pos_x := 0.5; pos_y := 0.3 |} 7 Clear)
     = (5 + 2)%nat).
Proof.
  vm_compute. discriminate.
Qed.

(** C8 (amended): the polyline returned by [generateShotPath] starts at a
    point whose x,y are the contact point's, ends at a point whose x,y are
    the target zone's centre, and has exactly four interior points, at
    t = 1/5, 2/5, 3/5, 4/5: each is the linear interpolation of the
    endpoints in x,y and has height 0.3 + peak * 4t(1-t), where the peak
    is three times the height factor of the shot type. *)
Theorem generateShotPath_shape
    (K : Constants) (C : Collaborators)
    (contactPoint : Position) (targetZone : Z) (shotType : ShotType) :
  let target := zoneToPosition C targetZone in
  let peak := heightFactor K shotType * 3 in
  exists first interior last,
    generateShotPath K C contactPoint targetZone shotType
    = first :: interior ++ [last]
    /\ List.length interior = 4%nat
    /\ pt_x first = pos_x contactPoint /\ pt_y first = pos_y contactPoint
    /\ pt_x last = pos_x target /\ pt_y last = pos_y target
    /\ pt_z first == 0.5 /\ pt_z last == 0.2
    /\ forall (i : nat) (p : PathPoint),
         nth_error interior i = Some p ->
         let t := inject_Z (Z.of_nat (S i)) / 5 in
         pt_x p == pos_x contactPoint
                   + (pos_x target - pos_x contactPoint) * t
         /\ pt_y p == pos_y contactPoint
                      + (pos_y target - pos_y contactPoint) * t
         /\ pt_z p == 0.3 + peak * (4 * t * (1 - t)).
Proof.
  cbv zeta. unfold generateShotPath. fold (heightFactor K shotType).
  cbn [numPoints Nat.sub seq map app].
  eexists _, [_; _; _; _], _. split; [reflexivity |].
  repeat (split; [reflexivity |]).
  intros i p Hp.
  do 4 (destruct i as [| i];
        [ injection Hp as <-; cbn [pt_x pt_y pt_z];
          repeat split; try reflexivity; field | ]).
  destruct i; discriminate Hp.
Qed.

(** ** Degenerate inputs *)

(** C2: on the empty trajectory [analyzeRally] returns, without throwing, a
    result with no shots and the neutral summary: [totalShots] 0,
    [dominantPhase] neutral, [averagePressure] 0.5 and no key moment. *)
Theorem analyzeRally_empty_trajectory
    (K : Constants) (C : Collaborators) (session : string)
    (poseTimestamps : option (list Q))
    (opponentPositions playerPositions : option (list TimedPosition))
    (w : World) :
  exists (result : RallyAnalysisResult) (w' : World),
    analyzeRally K C session [] poseTimestamps
                 opponentPositions playerPositions w
    = Some (result, w')
    /\ sessionId result = session
    /\ shots result = []
    /\ totalShots (summary result) = 0%nat
    /\ dominantPhase (summary result) = Neutral
    /\ averagePressure (summary result) == 0.5
    /\ keyMoments (summary result) = []
    /\ engineVersion (metadata result) = ENGINE_VERSION K.
Proof.
  unfold analyzeRally, segmentShots, bind, Date_now, ret.
  cbn [List.length Nat.ltb Nat.leb Nat.eqb].
  eexists _, _. split; [reflexivity |].
  cbn. repeat split; reflexivity.
Qed.

(** C3: for a shot index that is negative or not below the number of
    segmented shots, [generateRecommendationsForShot] returns the empty list
    and does not throw; it reads neither the clock nor the random source. *)
Theorem generateRecommendationsForShot_out_of_range
    (K : Constants) (C : Collaborators)
    (trajectory : list TrajectoryPoint) (shotIndex : Z)
    (opponentPosition : option Position) (w : World) :
  (shotIndex < 0
   \/ Z.of_nat (List.length (segmentShots C trajectory None)) <= shotIndex)%Z ->
  generateRecommendationsForShot K C trajectory shotIndex opponentPosition w
  = Some ([], w).
Proof.
  intros Hout. unfold generateRecommendationsForShot.
  assert (E : ((shotIndex <? 0)%Z
               || (shotIndex >=?
                     Z.of_nat (List.length (segmentShots C trajectory None)))%Z)
              = true).
  { apply orb_true_iff. rewrite Z.ltb_lt, Z.geb_le. exact Hout. }
  rewrite E. reflexivity.
Qed.

(** [generateRecommendationsForShot_out_of_range] on the two-point
    trajectory of the unit tests, which the fixture segments into one shot:
    index 1 is out of range. *)
Lemma generateRecommendationsForShot_out_of_range_witness :
  generateRecommendationsForShot
    Fixture.constants Fixture.collaborators
    (trajectorySlice Fixture.mockShot) 1 None Fixture.world
  = Some ([], Fixture.world).
Proof.
  apply generateRecommendationsForShot_out_of_range.
  right. vm_compute. discriminate.
Defined.

(** ** Defensive shots under pressure *)






(** ** Sorting by a descending key *)

Section SortByKey.

Context {A : Type} (key : A -> Z).

Let cmp (a b : A) : Z := (key b - key a)%Z.
Let before (a b : A) : Prop := (key b <= key a)%Z.

Lemma sort_insert_length (a : A) (l : list A) :
  List.length (sort_insert cmp a l) = S (List.length l).
Proof.
  induction l as [| b rest IH]; simpl; [reflexivity |].
  destruct (cmp a b <=? 0)%Z; simpl; [reflexivity | now rewrite IH].
Qed.

Lemma Array_sort_length (l : list A) :
  List.length (Array_sort cmp l) = List.length l.
Proof.
  induction l as [| a rest IH]; simpl; [reflexivity |].
  rewrite sort_insert_length. now rewrite IH.
Qed.

Lemma sort_insert_sorted (a : A) (l : list A) :
  Sorted before l -> Sorted before (sort_insert cmp a l).
Proof.
  induction l as [| b rest IH]; intros Hs; simpl.
  - repeat constructor.
  - destruct (cmp a b <=? 0)%Z eqn:E.
    + apply Z.leb_le in E. constructor; [exact Hs |].
      constructor. unfold before, cmp in *. lia.
    + apply Z.leb_gt in E. inversion Hs as [| ? ? Hrest Hhd]; subst.
      constructor; [apply IH, Hrest |].
      destruct rest as [| c rest']; simpl.
      * constructor. unfold before, cmp in *. lia.
      * destruct (cmp a c <=? 0)%Z.
        -- constructor. unfold before, cmp in *. lia.
        -- inversion Hhd; subst. constructor. assumption.
Qed.

Lemma Array_sort_sorted (l : list A) : Sorted before (Array_sort cmp l).
Proof.
  induction l as [| a rest IH]; simpl.
  - constructor.
  - apply sort_insert_sorted, IH.
Qed.

Lemma sort_insert_perm (a : A) (l : list A) :
  Permutation (a :: l) (sort_insert cmp a l).
Proof.
  induction l as [| b rest IH]; simpl; [apply Permutation_refl |].
  destruct (cmp a b <=? 0)%Z; [apply Permutation_refl |].
  apply perm_trans with (b :: a :: rest);
    [apply perm_swap | apply perm_skip, IH].
Qed.

Lemma Array_sort_perm (l : list A) : Permutation l (Array_sort cmp l).
Proof.
  induction l as [| a rest IH]; simpl; [constructor |].
  apply perm_trans with (a :: Array_sort cmp rest);
    [apply perm_skip, IH | apply sort_insert_perm].
Qed.

Lemma Sorted_adjacent (l : list A) (i : nat) (a b : A) :
  Sorted before l ->
  nth_error l i = Some a -> nth_error l (S i) = Some b ->
  (key b <= key a)%Z.
Proof.
  intros Hs. revert i. induction Hs as [| x rest Hrest IH Hhd];
    intros i Ha Hb.
  - destruct i; discriminate Ha.
  - destruct i as [| i]; simpl in Ha, Hb.
    + injection Ha as ->. destruct rest as [| y rest']; [discriminate Hb |].
      simpl in Hb. injection Hb as ->. inversion Hhd; subst. assumption.
    + eapply IH; eassumption.
Qed.

End SortByKey.

(** Sorting commutes with a map that preserves the key. *)
Lemma Array_sort_map {A B : Type} (keyA : A -> Z) (keyB : B -> Z)
    (g : A -> B) (l : list A) :
  (forall a, keyB (g a) = keyA a) ->
  Array_sort (fun x y => (keyB y - keyB x)%Z) (map g l)
  = map g (Array_sort (fun x y => (keyA y - keyA x)%Z) l).
Proof.
  intros Hkey. induction l as [| a rest IH]; simpl; [reflexivity |].
  rewrite IH. clear IH.
  induction (Array_sort (fun x y => (keyA y - keyA x)%Z) rest)
    as [| b sorted IH]; simpl; [reflexivity |].
  rewrite !Hkey.
  destruct (keyA b - keyA a <=? 0)%Z; simpl; [reflexivity | now rewrite IH].
Qed.

(** ** Recommendations up to their ids *)

Lemma mapM_Forall2 {A B : Type} (f : A -> Run B) (P : A -> B -> Prop) :
  (forall a w, exists b w', f a w = Some (b, w') /\ P a b) ->
  forall l w, exists bs w', mapM f l w = Some (bs, w') /\ Forall2 P l bs.
Proof.
  intros Hf. induction l as [| a rest IH]; intros w; simpl.
  - exists [], w. split; [reflexivity | constructor].
  - destruct (Hf a w) as (b & w1 & Eb & Pb).
    destruct (IH w1) as (bs & w2 & Ebs & Pbs).
    exists (b :: bs), w2. unfold bind. rewrite Eb, Ebs.
    split; [reflexivity | constructor; assumption].
Qed.

Lemma Forall2_map_eq {A B D : Type} (g : A -> D) (h : B -> D)
    (l : list A) (l' : list B) :
  Forall2 (fun a b => h b = g a) l l' -> map h l' = map g l.
Proof.
  induction 1 as [| a b l l' Hab _ IH]; simpl; [reflexivity |].
  now rewrite Hab, IH.
Qed.

Lemma scoreAndRankRecommendations_forgetId
    (K : Constants) (l : list ShotRecommendation)
    (features : ShotFeatures) (rallyState : RallyState)
    (weights : ScoringWeights) :
  map forgetId (scoreAndRankRecommendations K l features rallyState weights)
  = scoreAndRankRecommendations K (map forgetId l) features rallyState weights.
Proof.
  unfold scoreAndRankRecommendations.
  rewrite <- (Array_sort_map score score forgetId) by reflexivity.
  now rewrite !map_map.
Qed.

Lemma generateRecommendations_outline
    (K : Constants) (C : Collaborators)
    (shot : ShotSegment) (features : ShotFeatures) (rallyState : RallyState)
    (w : World) :
  exists recs w',
    generateRecommendations K C shot features rallyState w = Some (recs, w')
    /\ map forgetId recs
       = recommendationsOutline K C shot features rallyState.
Proof.
  unfold generateRecommendations, recommendationsOutline.
  set (contactPoint := match trajectorySlice shot with
                       | startPoint :: _ => _
                       | [] => _
                       end).
  set (zones := firstn 5 (targetZones rallyState)).
  set (viable := getViableShotTypes K (phase rallyState)
                                    (contactZone features)).
  set (outline := fun (s : ShotType) (z : Z) =>
         {| rec_id := EmptyString; shotType := s; targetZone := z;
            pathPolyline := generateShotPath K C contactPoint z s;
            score := 0; rationale := []; confidence := 0.75 |}).
  destruct (mapM_Forall2
              (fun s => mapM (fun z => buildCandidateRecommendation
                                         K C s z contactPoint) zones)
              (fun s rs => map forgetId rs = map (outline s) zones))
    with (l := viable) (w := w) as (perType & w' & Eper & Hper).
  { intros s w0.
    destruct (mapM_Forall2
                (fun z => buildCandidateRecommendation K C s z contactPoint)
                (fun z r => forgetId r = outline s z))
      with (l := zones) (w := w0) as (rs & w1 & Ers & Hrs).
    - intros z w1. eexists _, _. split; reflexivity.
    - exists rs, w1. split; [exact Ers |].
      apply Forall2_map_eq. exact Hrs. }
  unfold bind. rewrite Eper. eexists _, _. split; [reflexivity |].
  rewrite <- firstn_map, scoreAndRankRecommendations_forgetId.
  rewrite concat_map.
  replace (map (map forgetId) perType)
    with (map (fun s => map (outline s) zones) viable); [reflexivity |].
  symmetry. apply Forall2_map_eq with (h := map forgetId). exact Hper.
Qed.

Lemma targetZones_at_least_nine (rallyState : RallyState) :
  (9 <= List.length (targetZones rallyState))%nat.
Proof.
  unfold targetZones. rewrite length_app.
  set (open := openCourtZones rallyState).
  set (grid := map Z.of_nat (seq 0 9)).
  pose proof (filter_length (includes open) grid) as Hsplit.
  assert (Hgrid : List.length grid = 9%nat) by reflexivity.
  assert (Hopen : (List.length (filter (includes open) grid)
                   <= List.length open)%nat).
  { apply NoDup_incl_length.
    - apply NoDup_filter. unfold grid.
      cbn [seq map Z.of_nat Pos.of_succ_nat Pos.succ].
      repeat constructor; simpl; intuition discriminate.
    - intros z Hz. apply filter_In in Hz. apply includes_true, Hz. }
  lia.
Qed.

Lemma recommendationsOutline_length
    (K : Constants) (C : Collaborators)
    (shot : ShotSegment) (features : ShotFeatures) (rallyState : RallyState) :
  getViableShotTypes K (phase rallyState) (contactZone features) <> [] ->
  List.length (recommendationsOutline K C shot features rallyState) = 3%nat.
Proof.
  intros Hviable. unfold recommendationsOutline.
  apply firstn_length_le.
  unfold scoreAndRankRecommendations.
  rewrite (Array_sort_length score), length_map.
  destruct (getViableShotTypes K (phase rallyState) (contactZone features))
    as [| s rest]; [contradiction |].
  cbn [map List.concat]. rewrite length_app, length_map.
  rewrite firstn_length_le
    by (pose proof (targetZones_at_least_nine rallyState); lia).
  lia.
Qed.


(** ** Top three, ranked *)


Lemma Fixture_repertoire_covers_court (phase : RallyPhase) (contactZone : Z) :
  getViableShotTypes Fixture.constants phase contactZone <> [].
Proof.
  unfold getViableShotTypes.
  destruct (contactZone / 3 =? 2)%Z; [| destruct (contactZone / 3 =? 1)%Z];
    destruct phase; discriminate.
Qed.


(** ** Determinism *)

Lemma generatePerShotAnalysisFrom_worlds
    (K : Constants) (C : Collaborators)
    (rallyStates : list RallyState) (features : list ShotFeatures)
    (shots : list ShotSegment) (index : nat) (w1 w2 : World) :
  option_map (map forgetIds)
    (outcome (generatePerShotAnalysisFrom K C index shots
                                          rallyStates features w1))
  = option_map (map forgetIds)
      (outcome (generatePerShotAnalysisFrom K C index shots
                                            rallyStates features w2)).
Proof.
  revert index w1 w2.
  induction shots as [| shot rest IH]; intros index w1 w2; simpl.
  - reflexivity.
  - destruct (nth_error rallyStates index) as [state |]; [| reflexivity].
    destruct (nth_error features index) as [shotFeatures |]; [| reflexivity].
    destruct (generateRecommendations_outline K C shot shotFeatures state w1)
      as (recs1 & w1' & E1 & O1).
    destruct (generateRecommendations_outline K C shot shotFeatures state w2)
      as (recs2 & w2' & E2 & O2).
    unfold bind. rewrite E1, E2.
    specialize (IH (S index) w1' w2'). unfold outcome in *.
    destruct (generatePerShotAnalysisFrom K C (S index) rest
                                          rallyStates features w1')
      as [[others1 w1''] |];
      destruct (generatePerShotAnalysisFrom K C (S index) rest
                                            rallyStates features w2')
      as [[others2 w2''] |];
      simpl in IH |- *; try discriminate IH; [| reflexivity].
    injection IH as IH. unfold forgetIds at 1 3. simpl.
    now rewrite O1, O2, IH.
Qed.

(** C9: two calls of [analyzeRally] with the same arguments, in any two
    worlds, have the same outcome -- both throw, or both return, and the
    two results agree on every field once the rally id, the recommendation
    ids, [processedAt] and [processingTimeMs] are blanked. *)
Theorem analyzeRally_deterministic
    (K : Constants) (C : Collaborators) (session : string)
    (trajectory : list TrajectoryPoint) (poseTimestamps : option (list Q))
    (opponentPositions playerPositions : option (list TimedPosition))
    (w1 w2 : World) :
  option_map forgetVolatile
    (outcome (analyzeRally K C session trajectory poseTimestamps
                           opponentPositions playerPositions w1))
  = option_map forgetVolatile
      (outcome (analyzeRally K C session trajectory poseTimestamps
                             opponentPositions playerPositions w2)).
Proof.
  unfold analyzeRally, outcome, generatePerShotAnalysis.
  unfold bind, Date_now, Math_random_base36, ret. cbv zeta.
  set (shots := segmentShots C trajectory poseTimestamps).
  destruct (List.length shots =? 0)%nat; [reflexivity |].
  set (rallyStates := computeAllRallyStates C shots opponentPositions).
  set (features := extractAllShotFeatures C shots rallyStates
                     opponentPositions playerPositions).
  cbn [clock entropy clockReads entropyReads].
  match goal with
  | |- context [generatePerShotAnalysisFrom K C 0 shots rallyStates
                                            features ?wa] =>
      set (after1 := wa)
  end.
  match goal with
  | |- context [generatePerShotAnalysisFrom K C 0 shots rallyStates
                                            features ?wb] =>
      lazymatch wb with
      | after1 => fail
      | _ => set (after2 := wb)
      end
  end.
  pose proof (generatePerShotAnalysisFrom_worlds
                K C rallyStates features shots 0 after1 after2) as Hsame.
  unfold outcome in Hsame.
  destruct (generatePerShotAnalysisFrom K C 0 shots rallyStates
                                        features after1)
    as [[per1 w1'] |];
    destruct (generatePerShotAnalysisFrom K C 0 shots rallyStates
                                          features after2)
    as [[per2 w2'] |];
    simpl in Hsame; try discriminate Hsame; [| reflexivity].
  injection Hsame as Hsame.
  assert (Hlen : List.length per1 = List.length per2).
  { rewrite <- (length_map forgetIds per1), Hsame. apply length_map. }
  cbn. unfold forgetVolatile, buildRallySummary. cbn.
  now rewrite Hsame, Hlen.
Qed.


(** * Further properties of the scoring engine *)

(** ** The four factors *)

Lemma calculateOpenCourtScore_values (targetZone : Z) (st : RallyState) :
  calculateOpenCourtScore targetZone st = 1
  \/ calculateOpenCourtScore targetZone st = 0.8 + 0
  \/ calculateOpenCourtScore targetZone st = 0.4
  \/ calculateOpenCourtScore targetZone st = 0.1.
Proof.
  unfold calculateOpenCourtScore.
  destruct (includes (openCourtZones st) targetZone).
  - destruct (includes [0; 2; 6; 8]%Z targetZone); [left | right; left];
      reflexivity.
  - destruct (existsb _ (openCourtZones st)); auto.
Qed.

Lemma calculateMovementPressureScore_range
    (K : Constants) (targetZone : Z) (features : ShotFeatures) :
  0 <= calculateMovementPressureScore K targetZone features <= 1.
Proof.
  unfold calculateMovementPressureScore. apply clamp_range. discriminate.
Qed.

Lemma calculateOpenCourtScore_range (targetZone : Z) (st : RallyState) :
  0.1 <= calculateOpenCourtScore targetZone st <= 1.
Proof.
  destruct (calculateOpenCourtScore_values targetZone st)
    as [-> | [-> | [-> | ->]]]; split; discriminate.
Qed.

Lemma assessShotRisk_range
    (K : Constants) (shotType : ShotType) (st : RallyState) :
  0 <= assessShotRisk K shotType st <= 1.
Proof.
  unfold assessShotRisk. apply clamp_range. discriminate.
Qed.

Lemma calculateAngleExposure_range
    (K : Constants) (targetZone : Z) (shotType : ShotType) :
  0 <= calculateAngleExposure K targetZone shotType <= 1.
Proof.
  unfold calculateAngleExposure. apply clamp_range. discriminate.
Qed.

(** X1: whatever the tables hold, the four factors of a score are
    fractions: movement pressure, shot risk and angle exposure lie in
    [0,1], and the open-court score lies in [0.1,1]. *)
Theorem scoring_factors_are_fractions
    (K : Constants) (targetZone : Z) (shotType : ShotType)
    (features : ShotFeatures) (rallyState : RallyState) :
  0 <= calculateMovementPressureScore K targetZone features <= 1
  /\ 0.1 <= calculateOpenCourtScore targetZone rallyState <= 1
  /\ 0 <= assessShotRisk K shotType rallyState <= 1
  /\ 0 <= calculateAngleExposure K targetZone shotType <= 1.
Proof.
  split; [| split; [| split]].
  - apply calculateMovementPressureScore_range.
  - apply calculateOpenCourtScore_range.
  - apply assessShotRisk_range.
  - apply calculateAngleExposure_range.
Qed.

(** ** The rationale *)

(** The shape of an entry of [buildRationale]. *)
Lemma buildRationale_entry
    (K : Constants) (zone : Z) (s : ShotType) (f : ShotFeatures)
    (st : RallyState) (mv oc risk angle : Q) (r : RecommendationRationale) :
  In r (buildRationale K zone s f st mv oc risk angle) ->
  (rat_type r = movement_pressure /\ impact r = mv /\ 0.5 < mv)
  \/ (rat_type r = open_court /\ impact r = oc /\ 0.5 < oc)
  \/ (rat_type r = risk_reduction /\ impact r = - risk /\ 0.5 < risk)
  \/ (rat_type r = risk_reduction /\ impact r = 1 - risk /\ risk < 0.3)
  \/ (rat_type r = angle_denial /\ impact r = - angle /\ 0.4 < angle)
  \/ (rat_type r = recovery_time /\ impact r = 0.5).
Proof.
  unfold buildRationale. rewrite !in_app_iff.
  intros [H | [H | [H | [H | H]]]].
  - destruct (gt mv 0.5) eqn:E; [| contradiction].
    destruct H as [<- | []]. left. apply gt_true in E. auto.
  - destruct (gt oc 0.5) eqn:E; [| contradiction].
    destruct H as [<- | []]. right; left. apply gt_true in E. auto.
  - destruct (gt (pressure st) (thr_defense (PRESSURE_THRESHOLDS K))
              && gt risk 0.5) eqn:E.
    + destruct H as [<- | []]. right; right; left.
      apply andb_true_iff in E. destruct E as [_ E]. apply gt_true in E. auto.
    + destruct (lt risk 0.3 && RallyPhase_eqb (phase st) Defense) eqn:E';
        [| contradiction].
      destruct H as [<- | []]. right; right; right; left.
      apply andb_true_iff in E'. destruct E' as [E' _].
      unfold lt in E'. fold (gt 0.3 risk) in E'. apply gt_true in E'. auto.
  - destruct (gt angle 0.4) eqn:E; [| contradiction].
    destruct H as [<- | []]. do 4 right; left. apply gt_true in E. auto.
  - destruct (includesShot [Clear; Lift] s && gt (recoveryQuality f) 0.4);
      [| contradiction].
    destruct H as [<- | []]. do 5 right. auto.
Qed.

(** X2: every entry of the rationale of a scored recommendation has its
    impact in [-1,1], for all tables, weights and inputs. *)
Theorem scoreRecommendation_rationale_impact_range
    (K : Constants) (candidate : ShotRecommendation)
    (features : ShotFeatures) (rallyState : RallyState)
    (weights : ScoringWeights) (r : RecommendationRationale) :
  In r (rationale (scoreRecommendation K candidate features rallyState
                                       weights)) ->
  -1 <= impact r <= 1.
Proof.
  unfold scoreRecommendation. cbn [rationale]. intros Hin.
  pose proof (calculateMovementPressureScore_range
                K (targetZone candidate) features) as Hmv.
  pose proof (calculateOpenCourtScore_range
                (targetZone candidate) rallyState) as Hoc.
  pose proof (assessShotRisk_range K (shotType candidate) rallyState)
    as Hrisk.
  pose proof (calculateAngleExposure_range
                K (targetZone candidate) (shotType candidate)) as Hangle.
  apply buildRationale_entry in Hin.
  destruct Hin as [(_ & -> & _) | [(_ & -> & _) | [(_ & -> & _)
                  | [(_ & -> & _) | [(_ & -> & _) | (_ & ->)]]]]];
    lra.
Qed.

(** X3: in the rationale of a scored recommendation a movement-pressure,
    open-court or recovery-time entry has a positive impact (above 0.5 for
    the first two) and an angle-denial entry a negative one (below -0.4):
    the sign tells whether the factor helped or hurt. *)
Theorem scoreRecommendation_rationale_signs
    (K : Constants) (candidate : ShotRecommendation)
    (features : ShotFeatures) (rallyState : RallyState)
    (weights : ScoringWeights) (r : RecommendationRationale) :
  In r (rationale (scoreRecommendation K candidate features rallyState
                                       weights)) ->
  (rat_type r = movement_pressure -> 0.5 < impact r)
  /\ (rat_type r = open_court -> 0.5 < impact r)
  /\ (rat_type r = recovery_time -> impact r == 0.5)
  /\ (rat_type r = angle_denial -> impact r < -0.4)
  /\ (rat_type r = risk_reduction -> impact r < -0.5 \/ 0.7 < impact r).
Proof.
  unfold scoreRecommendation. cbn [rationale]. intros Hin.
  apply buildRationale_entry in Hin.
  destruct Hin as [(Ht & -> & H) | [(Ht & -> & H) | [(Ht & -> & H)
                  | [(Ht & -> & H) | [(Ht & -> & H) | (Ht & ->)]]]]];
    rewrite Ht; repeat split; intros E; try discriminate E;
    try reflexivity; try lra.
Qed.

(** X4: the rationale lists its entries in the fixed order
    movement_pressure, open_court, risk_reduction, angle_denial,
    recovery_time, each type at most once; so it has at most five
    entries. *)
Theorem scoreRecommendation_rationale_order
    (K : Constants) (candidate : ShotRecommendation)
    (features : ShotFeatures) (rallyState : RallyState)
    (weights : ScoringWeights) :
  exists keep : RationaleType -> bool,
    map rat_type
        (rationale (scoreRecommendation K candidate features rallyState
                                        weights))
    = filter keep [movement_pressure; open_court; risk_reduction;
                   angle_denial; recovery_time].
Proof.
  unfold scoreRecommendation. cbn [rationale]. unfold buildRationale.
  rewrite !map_app.
  set (b1 := gt (calculateMovementPressureScore K _ _) 0.5).
  set (b2 := gt (calculateOpenCourtScore _ _) 0.5).
  set (b3 := gt (pressure rallyState) _ && gt (assessShotRisk K _ _) 0.5).
  set (b3' := lt (assessShotRisk K _ _) 0.3 && _).
  set (b4 := gt (calculateAngleExposure K _ _) 0.4).
  set (b5 := includesShot [Clear; Lift] _ && _).
  exists (fun t => match t with
                   | movement_pressure => b1
                   | open_court => b2
                   | risk_reduction => b3 || b3'
                   | angle_denial => b4
                   | recovery_time => b5
                   end).
  destruct b1, b2, b3, b3', b4, b5; reflexivity.
Qed.

(** [scoreRecommendation_rationale_impact_range] on the open-court entry of
    a clear to the open front-left corner, in the high-pressure defensive
    state of the unit tests. *)
Lemma scoreRecommendation_rationale_impact_range_witness :
  -1 <= impact {| rat_type := open_court;
                  description := "Targets undefended court area";
                  impact := 1 |} <= 1.
Proof.
  apply (scoreRecommendation_rationale_impact_range
           Fixture.constants
           {| rec_id := ""; shotType := Clear; targetZone := 0;
              pathPolyline := []; score := 0; rationale := [];
              confidence := 0.75 |}
           Fixture.mockFeatures (Fixture.mockRallyState Defense 0.9)
           (DEFAULT_SCORING_WEIGHTS Fixture.constants)).
  vm_compute. right. left. reflexivity.
Defined.

(** [scoreRecommendation_rationale_signs] on the angle-denial entry of a
    drop to the centre zone in the same state. *)
Lemma scoreRecommendation_rationale_signs_witness :
  impact {| rat_type := angle_denial;
            description := "May expose court to counter-attack angles";
            impact := -0.78 |} < -0.4.
Proof.
  apply (scoreRecommendation_rationale_signs
           Fixture.constants
           {| rec_id := ""; shotType := Drop; targetZone := 4;
              pathPolyline := []; score := 0; rationale := [];
              confidence := 0.75 |}
           Fixture.mockFeatures (Fixture.mockRallyState Defense 0.9)
           (DEFAULT_SCORING_WEIGHTS Fixture.constants)).
  - vm_compute. right. left. reflexivity.
  - reflexivity.
Defined.

(** ** Ranking *)

Section SortByKeyMore.

Context {A : Type} (key : A -> Z).

Let cmp (a b : A) : Z := (key b - key a)%Z.
Let before (a b : A) : Prop := (key b <= key a)%Z.

(** Inserting an element keeps the order among the elements of one key. *)
Lemma sort_insert_stable (v : Z) (a : A) (l : list A) :
  filter (fun x => (key x =? v)%Z) (sort_insert cmp a l)
  = filter (fun x => (key x =? v)%Z) (a :: l).
Proof.
  induction l as [| b rest IH]; [reflexivity |].
  cbn [sort_insert]. destruct (cmp a b <=? 0)%Z eqn:E; [reflexivity |].
  apply Z.leb_gt in E. unfold cmp in E.
  cbn [filter] in *. rewrite IH.
  destruct (key a =? v)%Z eqn:Ea; [| reflexivity].
  apply Z.eqb_eq in Ea.
  destruct (key b =? v)%Z eqn:Eb; [| reflexivity].
  apply Z.eqb_eq in Eb. lia.
Qed.

Lemma Array_sort_stable (v : Z) (l : list A) :
  filter (fun x => (key x =? v)%Z) (Array_sort cmp l)
  = filter (fun x => (key x =? v)%Z) l.
Proof.
  induction l as [| a rest IH]; [reflexivity |].
  cbn [Array_sort fold_right]. fold (Array_sort cmp rest).
  rewrite sort_insert_stable. cbn [filter]. now rewrite IH.
Qed.

(** Sorting a sorted list returns it. *)
Lemma Array_sort_of_sorted (l : list A) :
  Sorted before l -> Array_sort cmp l = l.
Proof.
  induction 1 as [| a rest Hrest IH Hhd]; [reflexivity |].
  cbn [Array_sort fold_right]. fold (Array_sort cmp rest). rewrite IH.
  destruct Hhd as [| b rest' Hab]; [reflexivity |].
  cbn [sort_insert].
  replace (cmp a b <=? 0)%Z with true; [reflexivity |].
  symmetry. apply Z.leb_le. unfold before, cmp in *. lia.
Qed.

End SortByKeyMore.

(** X5: [scoreAndRankRecommendations] returns the scored candidates
    rearranged: nothing is dropped, added or duplicated, so the result has
    one recommendation per candidate. *)
Theorem scoreAndRankRecommendations_permutes_scored
    (K : Constants) (candidates : list ShotRecommendation)
    (features : ShotFeatures) (rallyState : RallyState)
    (weights : ScoringWeights) :
  Permutation
    (map (fun rec => scoreRecommendation K rec features rallyState weights)
         candidates)
    (scoreAndRankRecommendations K candidates features rallyState weights)
  /\ List.length (scoreAndRankRecommendations K candidates features
                                              rallyState weights)
     = List.length candidates.
Proof.
  unfold scoreAndRankRecommendations. split.
  - apply (Array_sort_perm score).
  - now rewrite (Array_sort_length score), length_map.
Qed.

(** X6: for any list of candidates the ranking is in non-increasing order
    of score, and it is stable: the recommendations of one score stay in
    the order their candidates were given. *)
Theorem scoreAndRankRecommendations_sorted_stable
    (K : Constants) (candidates : list ShotRecommendation)
    (features : ShotFeatures) (rallyState : RallyState)
    (weights : ScoringWeights) :
  let ranked :=
    scoreAndRankRecommendations K candidates features rallyState weights in
  (forall (i : nat) (a b : ShotRecommendation),
     nth_error ranked i = Some a -> nth_error ranked (S i) = Some b ->
     (score b <= score a)%Z)
  /\ forall v : Z,
       filter (fun r => (score r =? v)%Z) ranked
       = filter (fun r => (score r =? v)%Z)
           (map (fun rec => scoreRecommendation K rec features rallyState
                                                weights)
                candidates).
Proof.
  cbv zeta. unfold scoreAndRankRecommendations. split.
  - intros i a b. apply (Sorted_adjacent score). apply Array_sort_sorted.
  - intros v. apply (Array_sort_stable score).
Qed.

(** X7: ranking is idempotent: scoring and ranking an already ranked list
    again, in the same situation, returns it unchanged. *)
Theorem scoreAndRankRecommendations_idempotent
    (K : Constants) (candidates : list ShotRecommendation)
    (features : ShotFeatures) (rallyState : RallyState)
    (weights : ScoringWeights) :
  scoreAndRankRecommendations K
    (scoreAndRankRecommendations K candidates features rallyState weights)
    features rallyState weights
  = scoreAndRankRecommendations K candidates features rallyState weights.
Proof.
  unfold scoreAndRankRecommendations at 1.
  set (ranked := scoreAndRankRecommendations K candidates features
                                             rallyState weights).
  assert (Hfix : map (fun rec => scoreRecommendation K rec features
                                                     rallyState weights)
                     ranked = ranked).
  { rewrite <- (map_id ranked) at 2. apply map_ext_in. intros r Hr.
    unfold ranked, scoreAndRankRecommendations in Hr.
    apply (Permutation_in r (Permutation_sym (Array_sort_perm score _)))
      in Hr.
    apply in_map_iff in Hr. destruct Hr as (c & <- & _). reflexivity. }
  rewrite Hfix. apply (Array_sort_of_sorted score).
  unfold ranked, scoreAndRankRecommendations. apply Array_sort_sorted.
Qed.

(** ** How risk, exposure and confidence vary *)

Lemma clamp01_scale_mono (x k1 k2 : Q) :
  0 <= k1 <= k2 ->
  Math_min 1 (Math_max 0 (x * k1)) <= Math_min 1 (Math_max 0 (x * k2)).
Proof.
  intros [H0 H12].
  destruct (Qlt_le_dec x 0) as [Hneg | Hpos].
  - assert (x * k1 <= 0) by nra. assert (x * k2 <= 0) by nra.
    case_minmax; lra.
  - apply clamp_mono. nra.
Qed.

Lemma phaseMultiplier_positive (p : RallyPhase) (s : ShotType) :
  0 < match p with
      | Defense => if includesShot [Smash; Drop; Net] s then 1.3 else 1
      | Attack => if includesShot [Clear; Lift] s then 0.8 else 1
      | Neutral => 1
      end.
Proof.
  destruct p; try reflexivity;
    match goal with |- context [if ?b then _ else _] => destruct b end;
    reflexivity.
Qed.

(** X8: under more pressure no shot is assessed less risky: for two states
    in the same phase with pressures 0 <= p1 <= p2, the risk of any shot
    type at p1 is at most its risk at p2. *)
Theorem assessShotRisk_monotone_in_pressure
    (K : Constants) (shotType : ShotType) (st1 st2 : RallyState) :
  phase st1 = phase st2 ->
  0 <= pressure st1 -> pressure st1 <= pressure st2 ->
  assessShotRisk K shotType st1 <= assessShotRisk K shotType st2.
Proof.
  intros Hphase H0 H12. unfold assessShotRisk. rewrite Hphase.
  pose proof (phaseMultiplier_positive (phase st2) shotType) as Hm.
  set (m := match phase st2 with
            | Attack => _ | Neutral => _ | Defense => _ end) in *.
  fold (riskLevel K shotType). set (a := riskLevel K shotType).
  set (q1 := 1 + pressure st1 * 0.5). set (q2 := 1 + pressure st2 * 0.5).
  assert (Hq1 : 0 <= q1) by (unfold q1; lra).
  assert (Hq12 : q1 <= q2) by (unfold q1, q2; lra).
  destruct (Qlt_le_dec a 0) as [Hneg | Hpos].
  - assert (H1 : a * q1 <= 0) by nra. assert (H2 : a * q2 <= 0) by nra.
    set (x1 := a * q1) in *. set (x2 := a * q2) in *.
    assert (x1 * m <= 0) by nra. assert (x2 * m <= 0) by nra.
    case_minmax; lra.
  - apply clamp_mono.
    assert (H1 : a * q1 <= a * q2) by nra.
    set (x1 := a * q1) in *. set (x2 := a * q2) in *. nra.
Qed.

(** [assessShotRisk_monotone_in_pressure] for a smash in defence, at
    pressure 0.5 and 0.9. *)
Lemma assessShotRisk_monotone_in_pressure_witness :
  assessShotRisk Fixture.constants Smash (Fixture.mockRallyState Defense 0.5)
  <= assessShotRisk Fixture.constants Smash
       (Fixture.mockRallyState Defense 0.9).
Proof.
  apply assessShotRisk_monotone_in_pressure.
  - reflexivity.
  - vm_compute; discriminate.
  - vm_compute; discriminate.
Defined.

(** X9: at equal pressure a shot type is assessed least risky in attack and
    most risky in defense: its risk in an attack state is at most its risk
    in a neutral state, which is at most its risk in a defense state. *)
Theorem assessShotRisk_ordered_by_phase
    (K : Constants) (shotType : ShotType) (st1 st2 : RallyState) :
  pressure st1 = pressure st2 ->
  phase st1 = Attack
  \/ (phase st1 = Neutral /\ phase st2 <> Attack)
  \/ phase st2 = Defense ->
  assessShotRisk K shotType st1 <= assessShotRisk K shotType st2.
Proof.
  intros Hp Hphase. unfold assessShotRisk. rewrite Hp.
  set (x := match SHOT_RISK_LEVELS K shotType with
            | Some r => r | None => 0.5 end * (1 + pressure st2 * 0.5)).
  apply clamp01_scale_mono.
  destruct (phase st1), (phase st2);
    destruct (includesShot [Smash; Drop; Net] shotType);
    destruct (includesShot [Clear; Lift] shotType);
    try (split; discriminate);
    exfalso; destruct Hphase as [H | [[H H'] | H]];
    congruence.
Qed.

(** [assessShotRisk_ordered_by_phase] for a smash at pressure 0.5, from
    attack to defense. *)
Lemma assessShotRisk_ordered_by_phase_witness :
  assessShotRisk Fixture.constants Smash (Fixture.mockRallyState Attack 0.5)
  <= assessShotRisk Fixture.constants Smash
       (Fixture.mockRallyState Defense 0.5).
Proof.
  apply assessShotRisk_ordered_by_phase.
  - reflexivity.
  - left. reflexivity.
Defined.

(** X10: to a deep corner (zone 6 or 8) no shot type exposes less angle
    than a clear; to the centre column near the net (zone 1 or 4) no shot
    type exposes more angle than a drop or a net shot. *)
Theorem calculateAngleExposure_extremes
    (K : Constants) (targetZone : Z) (shotType : ShotType) :
  (In targetZone [6; 8]%Z ->
     calculateAngleExposure K targetZone Clear
     <= calculateAngleExposure K targetZone shotType)
  /\ (In targetZone [1; 4]%Z ->
        calculateAngleExposure K targetZone shotType
        <= calculateAngleExposure K targetZone Drop
        /\ calculateAngleExposure K targetZone shotType
           <= calculateAngleExposure K targetZone Net).
Proof.
  unfold calculateAngleExposure.
  set (base := match ANGLE_RISK_BY_ZONE K targetZone with
               | Some r => r | None => 0.5 end).
  split.
  - intros [<- | [<- | []]]; destruct shotType;
      cbn [includesShot existsb ShotType_eqb includes Z.eqb Pos.eqb
           orb andb];
      apply clamp01_scale_mono; split; discriminate.
  - intros [<- | [<- | []]]; destruct shotType;
      cbn [includesShot existsb ShotType_eqb includes Z.eqb Pos.eqb
           orb andb];
      split; apply clamp01_scale_mono; split; discriminate.
Qed.

(** [calculateAngleExposure_extremes] for a smash to the back-left corner
    and to the centre zone. *)
Lemma calculateAngleExposure_extremes_witness :
  calculateAngleExposure Fixture.constants 6 Clear
  <= calculateAngleExposure Fixture.constants 6 Smash
  /\ calculateAngleExposure Fixture.constants 4 Smash
     <= calculateAngleExposure Fixture.constants 4 Drop.
Proof.
  split.
  - apply (calculateAngleExposure_extremes Fixture.constants 6 Smash).
    simpl. auto.
  - apply (calculateAngleExposure_extremes Fixture.constants 4 Smash).
    simpl. auto.
Defined.

(** X11: a shot type that matches the phase -- smash, drop or net in
    attack, clear or lift in defense -- has the highest confidence any
    shot type gets in that state with those features. *)
Theorem calculateConfidence_highest_for_matching_shot
    (K : Constants) (matching other : ShotType)
    (rallyState : RallyState) (features : ShotFeatures) :
  (phase rallyState = Attack /\ In matching [Smash; Drop; Net])
  \/ (phase rallyState = Defense /\ In matching [Clear; Lift]) ->
  calculateConfidence K other rallyState features
  <= calculateConfidence K matching rallyState features.
Proof.
  intros Hmatch. unfold calculateConfidence.
  destruct (gt (pressure rallyState) (thr_defense (PRESSURE_THRESHOLDS K)));
    destruct (lt (recoveryQuality features) 0.3);
    destruct Hmatch as [[-> Hin] | [-> Hin]]; simpl in Hin;
    repeat (destruct Hin as [<- | Hin]); try contradiction;
    destruct other; vm_compute; discriminate.
Qed.

(** [calculateConfidence_highest_for_matching_shot] for a lift against a
    smash, in the high-pressure defensive state of the unit tests. *)
Lemma calculateConfidence_highest_for_matching_shot_witness :
  calculateConfidence Fixture.constants Smash
    (Fixture.mockRallyState Defense 0.9) Fixture.mockFeatures
  <= calculateConfidence Fixture.constants Lift
       (Fixture.mockRallyState Defense 0.9) Fixture.mockFeatures.
Proof.
  apply calculateConfidence_highest_for_matching_shot.
  right. split; [reflexivity | simpl; auto].
Defined.

(** ** Tactical value *)

Lemma getPhaseAlignment_range (s : ShotType) (p : RallyPhase) :
  0.1 <= getPhaseAlignment s p <= 1.
Proof.
  destruct p, s; split; discriminate.
Qed.

(** X12: the tactical value of a recommendation lies in [0, 0.8]: the
    positive contributions sum to at most 0.8, so the upper clamp at 1 is
    never reached. *)
Theorem calculateTacticalValue_range
    (K : Constants) (recommendation : ShotRecommendation)
    (features : ShotFeatures) (rallyState : RallyState) :
  0 <= calculateTacticalValue K recommendation features rallyState <= 0.8.
Proof.
  unfold calculateTacticalValue.
  pose proof (calculateMovementPressureScore_range
                K (targetZone recommendation) features) as Hmv.
  pose proof (calculateOpenCourtScore_range
                (targetZone recommendation) rallyState) as Hoc.
  pose proof (assessShotRisk_range K (shotType recommendation) rallyState)
    as Hrisk.
  pose proof (calculateAngleExposure_range
                K (targetZone recommendation) (shotType recommendation))
    as Hangle.
  pose proof (getPhaseAlignment_range (shotType recommendation)
                                      (phase rallyState)) as Hal.
  cbv zeta. case_minmax; lra.
Qed.

(** ** Comparing two recommendations *)

(** X13: the comparison does not depend on the order of its arguments:
    [compareRecommendations rec1 rec2] and [compareRecommendations rec2 rec1]
    are the same text, naming the same higher-scoring shot with the same
    gap and the same shot as having more advantages. *)
Theorem compareRecommendations_symmetric (rec1 rec2 : ShotRecommendation) :
  compareRecommendations rec1 rec2 = compareRecommendations rec2 rec1.
Proof.
  unfold compareRecommendations. cbv zeta.
  set (n1 := List.length (filter (fun r => gt (impact r) 0)
                                 (rationale rec1))).
  set (n2 := List.length (filter (fun r => gt (impact r) 0)
                                 (rationale rec2))).
  replace (score rec2 - score rec1)%Z with (- (score rec1 - score rec2))%Z
    by lia.
  set (d := (score rec1 - score rec2)%Z).
  rewrite Z.abs_opp, Z.opp_involutive.
  assert (Hverdict :
            (if (Z.abs d <? 5)%Z
             then ["Both options are similarly viable."%string]
             else if (d >? 0)%Z
                  then [(ShotType_name (shotType rec1) ++ " scores "
                         ++ show_Z d ++ " points higher.")%string]
                  else [(ShotType_name (shotType rec2) ++ " scores "
                         ++ show_Z (- d) ++ " points higher.")%string])
            = (if (Z.abs d <? 5)%Z
               then ["Both options are similarly viable."%string]
               else if (- d >? 0)%Z
                    then [(ShotType_name (shotType rec2) ++ " scores "
                           ++ show_Z (- d) ++ " points higher.")%string]
                    else [(ShotType_name (shotType rec1) ++ " scores "
                           ++ show_Z d ++ " points higher.")%string])).
  { destruct (Z.ltb_spec (Z.abs d) 5) as [Hsmall | Hbig]; [reflexivity |].
    rewrite !Z.gtb_ltb.
    destruct (Z.ltb_spec 0 d), (Z.ltb_spec 0 (- d)); try reflexivity; lia. }
  rewrite Hverdict.
  destruct (Nat.ltb_spec n2 n1), (Nat.ltb_spec n1 n2);
    try reflexivity; lia.
Qed.


(** * Further properties of the recommendation generator *)

(** ** Viable shot types and target zones *)

(** X14: whatever the repertoire table lists, [getViableShotTypes] never
    offers a serve or an unknown shot: no depth third allows them. *)
Theorem getViableShotTypes_never_serve_or_unknown
    (K : Constants) (phase : RallyPhase) (contactZone : Z) :
  ~ In Serve (getViableShotTypes K phase contactZone)
  /\ ~ In Unknown (getViableShotTypes K phase contactZone).
Proof.
  unfold getViableShotTypes.
  destruct (contactZone / 3 =? 2)%Z; [| destruct (contactZone / 3 =? 1)%Z];
    split; intros H; apply filter_In in H; destruct H as [_ H];
    discriminate H.
Qed.

(** X15: a drive is allowed from every depth third: when the repertoire of
    a phase lists [drive], a drive is viable from any contact zone, inside
    the grid or not, and the list of viable shot types is not empty. *)
Theorem getViableShotTypes_drive_from_anywhere
    (K : Constants) (phase : RallyPhase) (contactZone : Z) :
  In Drive (VIABLE_SHOTS_BY_PHASE K phase) ->
  In Drive (getViableShotTypes K phase contactZone)
  /\ getViableShotTypes K phase contactZone <> [].
Proof.
  intros Hlisted.
  assert (Hin : In Drive (getViableShotTypes K phase contactZone)).
  { unfold getViableShotTypes.
    destruct (contactZone / 3 =? 2)%Z; [| destruct (contactZone / 3 =? 1)%Z];
      apply filter_In; split; try exact Hlisted; reflexivity. }
  split; [exact Hin |].
  intros E. rewrite E in Hin. contradiction.
Qed.

(** [getViableShotTypes_drive_from_anywhere] for the attacking repertoire
    of the fixture and a contact zone outside the grid. *)
Lemma getViableShotTypes_drive_from_anywhere_witness :
  In Drive (getViableShotTypes Fixture.constants Attack 42)
  /\ getViableShotTypes Fixture.constants Attack 42 <> [].
Proof.
  apply getViableShotTypes_drive_from_anywhere. simpl. auto.
Defined.

Lemma inGrid_cases (z : Z) :
  inGrid z = true -> In z (map Z.of_nat (seq 0 9)).
Proof.
  unfold inGrid. rewrite andb_true_iff, !Z.leb_le. intros [H0 H8].
  assert (Hz : z = Z.of_nat (Z.to_nat z)) by lia. rewrite Hz.
  apply in_map, in_seq. lia.
Qed.

Lemma targetZones_member (rallyState : RallyState) (z : Z) :
  In z (targetZones rallyState) ->
  In z (openCourtZones rallyState) \/ inGrid z = true.
Proof.
  unfold targetZones. rewrite in_app_iff. intros [H | H]; [left; exact H |].
  right. apply filter_In in H. destruct H as [H _].
  apply in_map_iff in H. destruct H as (n & <- & Hn). apply in_seq in Hn.
  unfold inGrid. apply andb_true_iff. rewrite !Z.leb_le. lia.
Qed.

(** X16: the target zones start with the open zones, in their order, and
    contain every zone 0..8; when the open zones are given without
    repetition, no target zone is repeated. *)
Theorem targetZones_open_first_and_complete (rallyState : RallyState) :
  firstn (List.length (openCourtZones rallyState)) (targetZones rallyState)
  = openCourtZones rallyState
  /\ (forall z, inGrid z = true -> In z (targetZones rallyState))
  /\ (NoDup (openCourtZones rallyState) -> NoDup (targetZones rallyState)).
Proof.
  unfold targetZones. split; [| split].
  - rewrite firstn_app, Nat.sub_diag, firstn_all. cbn [firstn].
    apply app_nil_r.
  - intros z Hz. apply in_app_iff.
    destruct (includes (openCourtZones rallyState) z) eqn:E.
    + left. apply includes_true, E.
    + right. apply filter_In. split; [apply inGrid_cases, Hz |].
      now rewrite E.
  - intros Hopen. apply NoDup_app.
    + exact Hopen.
    + apply NoDup_filter. cbn [seq map Z.of_nat Pos.of_succ_nat Pos.succ].
      repeat constructor; simpl; intuition discriminate.
    + intros z Hz Hz'. apply filter_In in Hz'. destruct Hz' as [_ Hz'].
      apply includes_true in Hz. rewrite Hz in Hz'. discriminate Hz'.
Qed.

(** ** What is recommended *)

Lemma In_firstn {A : Type} (n : nat) (l : list A) (x : A) :
  In x (firstn n l) -> In x l.
Proof.
  intros H. rewrite <- (firstn_skipn n l). apply in_or_app. left. exact H.
Qed.

(** The candidate [generateRecommendations] builds for a shot type and a
    zone, id blanked. *)
Lemma recommendationsOutline_member
    (K : Constants) (C : Collaborators)
    (shot : ShotSegment) (features : ShotFeatures) (rallyState : RallyState)
    (r : ShotRecommendation) :
  In r (recommendationsOutline K C shot features rallyState) ->
  exists (s : ShotType) (z : Z),
    In s (getViableShotTypes K (phase rallyState) (contactZone features))
    /\ In z (candidateZones rallyState)
    /\ r = scoreRecommendation K
             {| rec_id := EmptyString; shotType := s; targetZone := z;
                pathPolyline :=
                  generateShotPath K C (contactPointOf shot) z s;
                score := 0; rationale := []; confidence := 0.75 |}
             features rallyState (DEFAULT_SCORING_WEIGHTS K).
Proof.
  unfold recommendationsOutline, scoreAndRankRecommendations.
  fold (contactPointOf shot). fold (candidateZones rallyState).
  intros H. apply In_firstn in H.
  apply (Permutation_in r (Permutation_sym (Array_sort_perm score _))) in H.
  apply in_map_iff in H. destruct H as (c & <- & Hc).
  apply in_concat in Hc. destruct Hc as (row & Hrow & Hc).
  apply in_map_iff in Hrow. destruct Hrow as (s & <- & Hs).
  apply in_map_iff in Hc. destruct Hc as (z & <- & Hz).
  exists s, z. auto.
Qed.

Lemma generateRecommendations_members
    (K : Constants) (C : Collaborators)
    (shot : ShotSegment) (features : ShotFeatures) (rallyState : RallyState)
    (w : World) :
  exists recs w',
    generateRecommendations K C shot features rallyState w = Some (recs, w')
    /\ forall rec, In rec recs ->
         exists (s : ShotType) (z : Z),
           In s (getViableShotTypes K (phase rallyState)
                                    (contactZone features))
           /\ In z (candidateZones rallyState)
           /\ forgetId rec
              = scoreRecommendation K
                  {| rec_id := EmptyString; shotType := s; targetZone := z;
                     pathPolyline :=
                       generateShotPath K C (contactPointOf shot) z s;
                     score := 0; rationale := []; confidence := 0.75 |}
                  features rallyState (DEFAULT_SCORING_WEIGHTS K).
Proof.
  destruct (generateRecommendations_outline K C shot features rallyState w)
    as (recs & w' & Erun & Eoutline).
  exists recs, w'. split; [exact Erun |].
  intros rec Hrec.
  apply (recommendationsOutline_member K C shot features rallyState).
  rewrite <- Eoutline. apply in_map, Hrec.
Qed.

(** X17: every recommendation [generateRecommendations] returns has a
    viable shot type, targets one of the five candidate zones, carries the
    flight path from the shot's contact point to that zone for that shot
    type, and is scored for its own shot type and zone: scoring it again
    in the same situation changes nothing. *)
Theorem generateRecommendations_well_formed
    (K : Constants) (C : Collaborators)
    (shot : ShotSegment) (features : ShotFeatures) (rallyState : RallyState)
    (w : World) :
  exists recs w',
    generateRecommendations K C shot features rallyState w = Some (recs, w')
    /\ forall rec, In rec recs ->
         In (shotType rec)
            (getViableShotTypes K (phase rallyState) (contactZone features))
         /\ In (targetZone rec) (candidateZones rallyState)
         /\ pathPolyline rec
            = generateShotPath K C (contactPointOf shot)
                               (targetZone rec) (shotType rec)
         /\ scoreRecommendation K rec features rallyState
                                (DEFAULT_SCORING_WEIGHTS K) = rec.
Proof.
  destruct (generateRecommendations_members K C shot features rallyState w)
    as (recs & w' & Erun & Hmem).
  exists recs, w'. split; [exact Erun |].
  intros rec Hrec. destruct (Hmem rec Hrec) as (s & z & Hs & Hz & E).
  destruct rec as [id st zone path sc rat conf].
  unfold forgetId, scoreRecommendation in E.
  cbn [rec_id shotType targetZone pathPolyline score rationale confidence]
    in E.
  injection E as Est Ezone Epath Esc Erat Econf. subst st zone path.
  cbn [shotType targetZone pathPolyline].
  repeat split; try assumption.
  unfold scoreRecommendation.
  cbn [rec_id shotType targetZone pathPolyline].
  now rewrite <- Esc, <- Erat, <- Econf.
Qed.

(** X18: the recommendations follow the open zones of the rally state:
    when it lists at least five open zones, every recommendation targets an
    open zone; and when its open zones are zone ids 0..8, so is the target
    zone of every recommendation. *)
Theorem generateRecommendations_targets
    (K : Constants) (C : Collaborators)
    (shot : ShotSegment) (features : ShotFeatures) (rallyState : RallyState)
    (w : World) :
  exists recs w',
    generateRecommendations K C shot features rallyState w = Some (recs, w')
    /\ forall rec, In rec recs ->
         ((5 <= List.length (openCourtZones rallyState))%nat ->
            In (targetZone rec) (openCourtZones rallyState))
         /\ ((forall z, In z (openCourtZones rallyState) ->
                         inGrid z = true) ->
               inGrid (targetZone rec) = true).
Proof.
  destruct (generateRecommendations_members K C shot features rallyState w)
    as (recs & w' & Erun & Hmem).
  exists recs, w'. split; [exact Erun |].
  intros rec Hrec. destruct (Hmem rec Hrec) as (s & z & _ & Hz & E).
  apply (f_equal targetZone) in E. cbn in E. rewrite E. split.
  - intros Hfive.
    unfold candidateZones, targetZones in Hz. rewrite firstn_app in Hz.
    replace (5 - List.length (openCourtZones rallyState))%nat with 0%nat
      in Hz by lia.
    rewrite firstn_O, app_nil_r in Hz.
    apply In_firstn in Hz. exact Hz.
  - intros Hopen. apply In_firstn, targetZones_member in Hz.
    destruct Hz as [Hz | Hz]; [apply Hopen, Hz | exact Hz].
Qed.

(** [generateRecommendations_targets] with the front row and two mid zones
    open. *)
Lemma generateRecommendations_targets_witness :
  let state :=
    {| phase := Attack; initiative := Us; pressure := 0.2;
       openCourtZones := [0; 1; 2; 3; 5]%Z; timestamp := 0 |} in
  exists recs w',
    generateRecommendations Fixture.constants Fixture.collaborators
      Fixture.mockShot Fixture.mockFeatures state Fixture.world
    = Some (recs, w')
    /\ forall rec, In rec recs ->
         In (targetZone rec) (openCourtZones state)
         /\ inGrid (targetZone rec) = true.
Proof.
  intro state.
  destruct (generateRecommendations_targets
              Fixture.constants Fixture.collaborators
              Fixture.mockShot Fixture.mockFeatures state Fixture.world)
    as (recs & w' & Erun & Htargets).
  exists recs, w'. split; [exact Erun |].
  intros rec Hrec. destruct (Htargets rec Hrec) as [Hopen Hgrid]. split.
  - apply Hopen. simpl. lia.
  - apply Hgrid. simpl.
    intros z [<- | [<- | [<- | [<- | [<- | []]]]]]; reflexivity.
Defined.

(** ** Reads of the world *)

Lemma laterWorld_refl (w : World) : laterWorld w w.
Proof. unfold laterWorld. repeat split; lia. Qed.

Lemma laterWorld_trans (w1 w2 w3 : World) :
  laterWorld w1 w2 -> laterWorld w2 w3 -> laterWorld w1 w3.
Proof.
  unfold laterWorld. intros (Hc & He & Hn & Hm) (Hc' & He' & Hn' & Hm').
  repeat split; try congruence; lia.
Qed.

Lemma readsForward_ret {A : Type} (a : A) : readsForward (ret a).
Proof.
  intros w b w' E. injection E as <- <-. apply laterWorld_refl.
Qed.

Lemma readsForward_throw {A : Type} : readsForward (@throw A).
Proof. intros w a w' E. discriminate E. Qed.

Lemma readsForward_Date_now : readsForward Date_now.
Proof.
  intros w a w' E. injection E as <- <-.
  unfold laterWorld. cbn. repeat split; lia.
Qed.

Lemma readsForward_Math_random_base36 : readsForward Math_random_base36.
Proof.
  intros w a w' E. injection E as <- <-.
  unfold laterWorld. cbn. repeat split; lia.
Qed.

Lemma readsForward_bind {A B : Type} (m : Run A) (k : A -> Run B) :
  readsForward m -> (forall a, readsForward (k a)) ->
  readsForward (bind m k).
Proof.
  intros Hm Hk w b w' E. unfold bind in E.
  destruct (m w) as [[a w1] |] eqn:Em; [| discriminate E].
  apply laterWorld_trans with w1; [eapply Hm, Em | eapply Hk, E].
Qed.

Lemma readsForward_mapM {A B : Type} (f : A -> Run B) (l : list A) :
  (forall a, readsForward (f a)) -> readsForward (mapM f l).
Proof.
  intros Hf. induction l as [| a rest IH]; cbn [mapM].
  - apply readsForward_ret.
  - apply readsForward_bind; [apply Hf |]. intros b.
    apply readsForward_bind; [exact IH |]. intros bs.
    apply readsForward_ret.
Qed.

Lemma readsForward_generateRecommendations
    (K : Constants) (C : Collaborators)
    (shot : ShotSegment) (features : ShotFeatures) (rallyState : RallyState) :
  readsForward (generateRecommendations K C shot features rallyState).
Proof.
  unfold generateRecommendations.
  apply readsForward_bind; [| intros; apply readsForward_ret].
  apply readsForward_mapM. intros s.
  apply readsForward_mapM. intros z.
  unfold buildCandidateRecommendation, generateRecId.
  repeat (apply readsForward_bind; [| intros ?]);
    first [ apply readsForward_Date_now
          | apply readsForward_Math_random_base36
          | apply readsForward_ret ].
Qed.

Lemma readsForward_generatePerShotAnalysisFrom
    (K : Constants) (C : Collaborators)
    (rallyStates : list RallyState) (features : list ShotFeatures)
    (shots : list ShotSegment) (index : nat) :
  readsForward
    (generatePerShotAnalysisFrom K C index shots rallyStates features).
Proof.
  revert index. induction shots as [| shot rest IH]; intros index;
    cbn [generatePerShotAnalysisFrom].
  - apply readsForward_ret.
  - destruct (nth_error rallyStates index);
      [| apply readsForward_throw].
    destruct (nth_error features index); [| apply readsForward_throw].
    apply readsForward_bind;
      [apply readsForward_generateRecommendations |]. intros recs.
    apply readsForward_bind; [apply IH |]. intros others.
    apply readsForward_ret.
Qed.

(** ** Per-shot analysis *)

Lemma generatePerShotAnalysisFrom_returns
    (K : Constants) (C : Collaborators)
    (rallyStates : list RallyState) (features : list ShotFeatures)
    (shots : list ShotSegment) (index : nat) (w : World) :
  (index + List.length shots <= List.length rallyStates)%nat ->
  (index + List.length shots <= List.length features)%nat ->
  exists analyses w',
    generatePerShotAnalysisFrom K C index shots rallyStates features w
    = Some (analyses, w')
    /\ map psa_shot analyses = shots
    /\ forall (i : nat) (a : PerShotAnalysis),
         nth_error analyses i = Some a ->
         exists state,
           nth_error rallyStates (index + i) = Some state
           /\ nth_error features (index + i) = Some (psa_features a)
           /\ map forgetId (recommendations a)
              = recommendationsOutline K C (psa_shot a) (psa_features a)
                                       state.
Proof.
  revert index w. induction shots as [| shot rest IH]; intros index w Hs Hf;
    cbn [generatePerShotAnalysisFrom].
  - exists [], w. split; [reflexivity |]. split; [reflexivity |].
    intros i a Hi. destruct i; discriminate Hi.
  - cbn [List.length] in Hs, Hf.
    destruct (nth_error rallyStates index) as [state |] eqn:Est;
      [| apply nth_error_None in Est; lia].
    destruct (nth_error features index) as [shotFeatures |] eqn:Ef;
      [| apply nth_error_None in Ef; lia].
    destruct (generateRecommendations_outline K C shot shotFeatures state w)
      as (recs & w1 & Erun & Eoutline).
    destruct (IH (S index) w1 ltac:(lia) ltac:(lia))
      as (others & w2 & Erest & Hshots & Hnth).
    unfold bind. rewrite Erun, Erest.
    eexists _, _. split; [reflexivity |]. split.
    + cbn. now rewrite Hshots.
    + intros i a Hi. destruct i as [| i].
      * injection Hi as <-. cbn. exists state.
        rewrite Nat.add_0_r. auto.
      * cbn in Hi. destruct (Hnth i a Hi) as (st & H1 & H2 & H3).
        exists st. rewrite <- Nat.add_succ_comm. auto.
Qed.

Lemma generatePerShotAnalysisFrom_throws
    (K : Constants) (C : Collaborators)
    (rallyStates : list RallyState) (features : list ShotFeatures)
    (shots : list ShotSegment) (index : nat) (w : World) :
  (List.length rallyStates - index < List.length shots)%nat
  \/ (List.length features - index < List.length shots)%nat ->
  generatePerShotAnalysisFrom K C index shots rallyStates features w = None.
Proof.
  revert index w. induction shots as [| shot rest IH]; intros index w Hshort;
    cbn [generatePerShotAnalysisFrom].
  - cbn in Hshort. lia.
  - cbn [List.length] in Hshort.
    destruct (nth_error rallyStates index) as [state |] eqn:Est;
      [| reflexivity].
    destruct (nth_error features index) as [shotFeatures |] eqn:Ef;
      [| reflexivity].
    assert (Hs : (index < List.length rallyStates)%nat)
      by (apply nth_error_Some; congruence).
    assert (Hf : (index < List.length features)%nat)
      by (apply nth_error_Some; congruence).
    destruct (generateRecommendations_outline K C shot shotFeatures state w)
      as (recs & w1 & Erun & _).
    unfold bind. rewrite Erun. rewrite IH; [reflexivity | lia].
Qed.

(** X19: when there are a rally state and a features value for every shot,
    [generatePerShotAnalysis] returns one analysis per shot, in order: the
    i-th analysis holds the i-th shot with the i-th features, and its
    recommendations are those computed from the i-th rally state. *)
Theorem generatePerShotAnalysis_pairs_by_index
    (K : Constants) (C : Collaborators)
    (shots : list ShotSegment) (rallyStates : list RallyState)
    (features : list ShotFeatures) (w : World) :
  (List.length shots <= List.length rallyStates)%nat ->
  (List.length shots <= List.length features)%nat ->
  exists analyses w',
    generatePerShotAnalysis K C shots rallyStates features w
    = Some (analyses, w')
    /\ map psa_shot analyses = shots
    /\ forall (i : nat) (a : PerShotAnalysis),
         nth_error analyses i = Some a ->
         exists state,
           nth_error rallyStates i = Some state
           /\ nth_error features i = Some (psa_features a)
           /\ map forgetId (recommendations a)
              = recommendationsOutline K C (psa_shot a) (psa_features a)
                                       state.
Proof.
  intros Hs Hf. unfold generatePerShotAnalysis.
  apply (generatePerShotAnalysisFrom_returns
           K C rallyStates features shots 0 w); assumption.
Qed.

(** [generatePerShotAnalysis_pairs_by_index] on one shot with its state and
    features. *)
Lemma generatePerShotAnalysis_pairs_by_index_witness :
  exists analyses w',
    generatePerShotAnalysis Fixture.constants Fixture.collaborators
      [Fixture.mockShot] [Fixture.neutralState] [Fixture.mockFeatures]
      Fixture.world
    = Some (analyses, w')
    /\ map psa_shot analyses = [Fixture.mockShot]
    /\ forall (i : nat) (a : PerShotAnalysis),
         nth_error analyses i = Some a ->
         exists state,
           nth_error [Fixture.neutralState] i = Some state
           /\ nth_error [Fixture.mockFeatures] i = Some (psa_features a)
           /\ map forgetId (recommendations a)
              = recommendationsOutline
                  Fixture.constants Fixture.collaborators
                  (psa_shot a) (psa_features a) state.
Proof.
  apply generatePerShotAnalysis_pairs_by_index; simpl; lia.
Defined.

(** X20: when a shot has no rally state or no features value at its index,
    [generatePerShotAnalysis] throws instead of returning a shorter
    list. *)
Theorem generatePerShotAnalysis_throws_on_missing_entry
    (K : Constants) (C : Collaborators)
    (shots : list ShotSegment) (rallyStates : list RallyState)
    (features : list ShotFeatures) (w : World) :
  (List.length rallyStates < List.length shots)%nat
  \/ (List.length features < List.length shots)%nat ->
  generatePerShotAnalysis K C shots rallyStates features w = None.
Proof.
  intros Hshort. unfold generatePerShotAnalysis.
  apply generatePerShotAnalysisFrom_throws. lia.
Qed.

(** [generatePerShotAnalysis_throws_on_missing_entry] on one shot with no
    rally state. *)
Lemma generatePerShotAnalysis_throws_on_missing_entry_witness :
  generatePerShotAnalysis Fixture.constants Fixture.collaborators
    [Fixture.mockShot] [] [Fixture.mockFeatures] Fixture.world
  = None.
Proof.
  apply generatePerShotAnalysis_throws_on_missing_entry.
  left. simpl. lia.
Defined.

(** ** The whole rally *)

Lemma analyzeRally_nonempty_run
    (K : Constants) (C : Collaborators) (session : string)
    (trajectory : list TrajectoryPoint) (poseTimestamps : option (list Q))
    (opponentPositions playerPositions : option (list TimedPosition))
    (w : World) :
  let segments := segmentShots C trajectory poseTimestamps in
  let states := computeAllRallyStates C segments opponentPositions in
  let features :=
    extractAllShotFeatures C segments states
                           opponentPositions playerPositions in
  let started :=
    {| clock := clock w; entropy := entropy w;
       clockReads := S (clockReads w); entropyReads := entropyReads w |} in
  segments <> [] ->
  match generatePerShotAnalysis K C segments states features started with
  | None =>
      analyzeRally K C session trajectory poseTimestamps
                   opponentPositions playerPositions w = None
  | Some (analyses, w1) =>
      exists result w',
        analyzeRally K C session trajectory poseTimestamps
                     opponentPositions playerPositions w
        = Some (result, w')
        /\ sessionId result = session
        /\ shots result = analyses
        /\ summary result = buildRallySummary C analyses states
        /\ engineVersion (metadata result) = ENGINE_VERSION K
        /\ processingTimeMs (metadata result)
           = (clock w1 (S (S (clockReads w1))) - clock w (clockReads w))%Z
  end.
Proof.
  cbv zeta. intros Hne.
  unfold analyzeRally, bind, Date_now, Math_random_base36, ret.
  cbv zeta.
  destruct (segmentShots C trajectory poseTimestamps) as [| seg segs] eqn:E;
    [contradiction |].
  cbn [List.length Nat.eqb].
  destruct (generatePerShotAnalysis K C (seg :: segs) _ _ _)
    as [[analyses w1] |]; [| reflexivity].
  eexists _, _. split; [reflexivity |]. cbn. repeat split.
Qed.

(** X21: when the segmenter finds shots and the collaborators supply a
    rally state and a features value for each, [analyzeRally] returns a
    result that echoes the session id, holds the segmented shots in order,
    counts them in [totalShots], takes the dominant phase, the average
    pressure and the key moments from the rally states, names the winner
    'unknown' and carries the engine version. *)
Theorem analyzeRally_summarises_segmented_shots
    (K : Constants) (C : Collaborators) (session : string)
    (trajectory : list TrajectoryPoint) (poseTimestamps : option (list Q))
    (opponentPositions playerPositions : option (list TimedPosition))
    (w : World) :
  let segments := segmentShots C trajectory poseTimestamps in
  let states := computeAllRallyStates C segments opponentPositions in
  let features :=
    extractAllShotFeatures C segments states
                           opponentPositions playerPositions in
  segments <> [] ->
  (List.length segments <= List.length states)%nat ->
  (List.length segments <= List.length features)%nat ->
  exists result w',
    analyzeRally K C session trajectory poseTimestamps
                 opponentPositions playerPositions w
    = Some (result, w')
    /\ sessionId result = session
    /\ map psa_shot (shots result) = segments
    /\ totalShots (summary result) = List.length segments
    /\ dominantPhase (summary result) = getDominantPhase C states
    /\ averagePressure (summary result) = getAveragePressure C states
    /\ keyMoments (summary result) = findKeyMoments C states
    /\ winner (summary result) = Some "unknown"%string
    /\ engineVersion (metadata result) = ENGINE_VERSION K.
Proof.
  cbv zeta. intros Hne Hs Hf.
  pose proof (analyzeRally_nonempty_run
                K C session trajectory poseTimestamps
                opponentPositions playerPositions w Hne) as Hrun.
  cbv zeta in Hrun.
  match type of Hrun with
  | match generatePerShotAnalysis K C ?s ?st ?f ?w0 with _ => _ end =>
      destruct (generatePerShotAnalysisFrom_returns K C st f s 0 w0 Hs Hf)
        as (analyses & w1 & Eper & Hshots & _)
  end.
  unfold generatePerShotAnalysis in Hrun. rewrite Eper in Hrun.
  destruct Hrun as (result & w' & Erun & Hid & Hsh & Hsum & Hver & _).
  exists result, w'. split; [exact Erun |].
  rewrite Hsum, Hsh. unfold buildRallySummary. cbn.
  repeat split; try assumption.
  rewrite <- Hshots. apply eq_sym, length_map.
Qed.

(** [analyzeRally_summarises_segmented_shots] on the two-point trajectory
    of the unit tests, which the fixture takes as one shot. *)
Lemma analyzeRally_summarises_segmented_shots_witness :
  exists result w',
    analyzeRally Fixture.constants Fixture.collaborators "test"
                 (trajectorySlice Fixture.mockShot) None None None
                 Fixture.world
    = Some (result, w')
    /\ sessionId result = "test"%string
    /\ totalShots (summary result) = 1%nat.
Proof.
  destruct (analyzeRally_summarises_segmented_shots
              Fixture.constants Fixture.collaborators "test"
              (trajectorySlice Fixture.mockShot) None None None
              Fixture.world)
    as (result & w' & Erun & Hid & _ & Htotal & _).
  - vm_compute. discriminate.
  - vm_compute. lia.
  - vm_compute. lia.
  - exists result, w'. split; [exact Erun |]. split; [exact Hid |].
    exact Htotal.
Defined.

(** X22: when every phase keeps a viable shot type for every contact zone
    and [analyzeRally] returns, every shot of the result carries exactly
    three recommendations. *)
Theorem analyzeRally_three_recommendations_per_shot
    (K : Constants) (C : Collaborators) (session : string)
    (trajectory : list TrajectoryPoint) (poseTimestamps : option (list Q))
    (opponentPositions playerPositions : option (list TimedPosition))
    (w w' : World) (result : RallyAnalysisResult) :
  (forall phase contactZone, getViableShotTypes K phase contactZone <> []) ->
  analyzeRally K C session trajectory poseTimestamps
               opponentPositions playerPositions w
  = Some (result, w') ->
  forall a, In a (shots result) ->
    List.length (recommendations a) = 3%nat.
Proof.
  intros Hviable Erun a Ha.
  destruct (segmentShots C trajectory poseTimestamps) as [| seg segs] eqn:E.
  - (* no shot: the result has none *)
    unfold analyzeRally, bind, Date_now, ret in Erun. cbv zeta in Erun.
    rewrite E in Erun. cbn [List.length Nat.eqb] in Erun.
    injection Erun as <- _. contradiction.
  - pose proof (analyzeRally_nonempty_run
                  K C session trajectory poseTimestamps
                  opponentPositions playerPositions w) as Hrun.
    cbv zeta in Hrun. rewrite E in Hrun. specialize (Hrun ltac:(discriminate)).
    unfold generatePerShotAnalysis in Hrun.
    set (states := computeAllRallyStates C (seg :: segs) opponentPositions)
      in *.
    set (features := extractAllShotFeatures C (seg :: segs) states
                       opponentPositions playerPositions) in *.
    match type of Hrun with
    | match generatePerShotAnalysisFrom K C 0 ?s ?st ?f ?w0 with _ => _ end =>
        destruct (generatePerShotAnalysisFrom K C 0 s st f w0)
          as [[analyses w1] |] eqn:Eper
    end.
    + destruct Hrun as (result' & w'' & Erun' & _ & Hsh & _).
      rewrite Erun in Erun'. injection Erun' as <- <-. rewrite Hsh in Ha.
      destruct (le_lt_dec (List.length (seg :: segs)) (List.length states))
        as [Hs | Hs];
        [| rewrite generatePerShotAnalysisFrom_throws in Eper;
           [discriminate Eper | lia]].
      destruct (le_lt_dec (List.length (seg :: segs)) (List.length features))
        as [Hf | Hf];
        [| rewrite generatePerShotAnalysisFrom_throws in Eper;
           [discriminate Eper | lia]].
      destruct (generatePerShotAnalysisFrom_returns
                  K C states features (seg :: segs) 0
                  {| clock := clock w; entropy := entropy w;
                     clockReads := S (clockReads w);
                     entropyReads := entropyReads w |} Hs Hf)
        as (analyses' & w1' & Eper' & _ & Hnth).
      rewrite Eper in Eper'. injection Eper' as <- <-.
      apply In_nth_error in Ha. destruct Ha as (i & Hi).
      destruct (Hnth i a Hi) as (state & _ & _ & Hrecs).
      rewrite <- (length_map forgetId), Hrecs.
      apply recommendationsOutline_length, Hviable.
    + rewrite Hrun in Erun. discriminate Erun.
Qed.

(** [analyzeRally_three_recommendations_per_shot] on the two-point
    trajectory of the unit tests. *)
Lemma analyzeRally_three_recommendations_per_shot_witness :
  match analyzeRally Fixture.constants Fixture.collaborators "test"
                     (trajectorySlice Fixture.mockShot) None None None
                     Fixture.world with
  | Some (result, _) =>
      forall a, In a (shots result) ->
        List.length (recommendations a) = 3%nat
  | None => False
  end.
Proof.
  destruct (analyzeRally Fixture.constants Fixture.collaborators "test"
                         (trajectorySlice Fixture.mockShot) None None None
                         Fixture.world)
    as [[result w'] |] eqn:Erun.
  - apply (analyzeRally_three_recommendations_per_shot
             Fixture.constants Fixture.collaborators "test"
             (trajectorySlice Fixture.mockShot) None None None
             Fixture.world w' result).
    + exact Fixture_repertoire_covers_court.
    + exact Erun.
  - assert (Hreturns :
              option_map (fun _ => tt)
                (analyzeRally Fixture.constants Fixture.collaborators "test"
                              (trajectorySlice Fixture.mockShot)
                              None None None Fixture.world)
              = Some tt) by (vm_compute; reflexivity).
    rewrite Erun in Hreturns. discriminate Hreturns.
Defined.

(** X23: when the collaborators return fewer rally states, or fewer
    features values, than there are segmented shots, [analyzeRally]
    throws. *)
Theorem analyzeRally_throws_on_missing_entry
    (K : Constants) (C : Collaborators) (session : string)
    (trajectory : list TrajectoryPoint) (poseTimestamps : option (list Q))
    (opponentPositions playerPositions : option (list TimedPosition))
    (w : World) :
  let segments := segmentShots C trajectory poseTimestamps in
  let states := computeAllRallyStates C segments opponentPositions in
  let features :=
    extractAllShotFeatures C segments states
                           opponentPositions playerPositions in
  (List.length states < List.length segments)%nat
  \/ (List.length features < List.length segments)%nat ->
  analyzeRally K C session trajectory poseTimestamps
               opponentPositions playerPositions w
  = None.
Proof.
  cbv zeta. intros Hshort.
  pose proof (analyzeRally_nonempty_run
                K C session trajectory poseTimestamps
                opponentPositions playerPositions w) as Hrun.
  cbv zeta in Hrun.
  assert (Hne : segmentShots C trajectory poseTimestamps <> []).
  { intros E. rewrite E in Hshort. cbn in Hshort. lia. }
  specialize (Hrun Hne).
  unfold generatePerShotAnalysis in Hrun.
  rewrite generatePerShotAnalysisFrom_throws in Hrun by lia.
  exact Hrun.
Qed.

(** [analyzeRally_throws_on_missing_entry] with a rally state machine that
    returns no state. *)
Lemma analyzeRally_throws_on_missing_entry_witness :
  let C :=
    {| zoneToPosition := Fixture.zoneCenter;
       segmentTrajectory := Fixture.wholeTrajectory;
       computeRallyState := fun _ _ _ => Fixture.neutralState;
       computeAllRallyStates := fun _ _ => [];
       getDominantPhase := fun _ => Neutral;
       getAveragePressure := fun _ => 0.5;
       findKeyMoments := fun _ => [];
       extractShotFeatures := fun shot state _ _ =>
         Fixture.featuresOf shot state;
       extractAllShotFeatures := fun shots _ _ _ =>
         map (fun shot => Fixture.featuresOf shot Fixture.neutralState)
             shots |} in
  analyzeRally Fixture.constants C "test"
               (trajectorySlice Fixture.mockShot) None None None
               Fixture.world
  = None.
Proof.
  intro C. apply analyzeRally_throws_on_missing_entry.
  left. vm_compute. lia.
Defined.

(** X24: on a clock that never goes back, the [processingTimeMs] of a
    result of [analyzeRally] is not negative. *)
Theorem analyzeRally_processing_time_nonnegative
    (K : Constants) (C : Collaborators) (session : string)
    (trajectory : list TrajectoryPoint) (poseTimestamps : option (list Q))
    (opponentPositions playerPositions : option (list TimedPosition))
    (w w' : World) (result : RallyAnalysisResult) :
  monotoneClock w ->
  analyzeRally K C session trajectory poseTimestamps
               opponentPositions playerPositions w
  = Some (result, w') ->
  (0 <= processingTimeMs (metadata result))%Z.
Proof.
  intros Hmono Erun.
  destruct (segmentShots C trajectory poseTimestamps) as [| seg segs] eqn:E.
  - unfold analyzeRally, bind, Date_now, ret in Erun. cbv zeta in Erun.
    rewrite E in Erun. cbn [List.length Nat.eqb] in Erun.
    injection Erun as <- _. cbn.
    pose proof (Hmono (clockReads w) (S (S (S (clockReads w))))
                      ltac:(lia)).
    lia.
  - pose proof (analyzeRally_nonempty_run
                  K C session trajectory poseTimestamps
                  opponentPositions playerPositions w) as Hrun.
    cbv zeta in Hrun. rewrite E in Hrun.
    specialize (Hrun ltac:(discriminate)).
    unfold generatePerShotAnalysis in Hrun.
    match type of Hrun with
    | match generatePerShotAnalysisFrom K C 0 ?s ?st ?f ?w0 with _ => _ end =>
        pose proof (readsForward_generatePerShotAnalysisFrom
                      K C st f s 0 w0) as Hlater;
        destruct (generatePerShotAnalysisFrom K C 0 s st f w0)
          as [[analyses w1] |] eqn:Eper
    end.
    + destruct Hrun as (result' & w'' & Erun' & _ & _ & _ & _ & Htime).
      rewrite Erun in Erun'. injection Erun' as <- <-. rewrite Htime.
      destruct (Hlater _ _ eq_refl) as (Hclock & _ & Hreads & _).
      cbn in Hclock, Hreads. rewrite Hclock.
      pose proof (Hmono (clockReads w) (S (S (clockReads w1))) ltac:(lia)).
      lia.
    + rewrite Hrun in Erun. discriminate Erun.
Qed.

(** [analyzeRally_processing_time_nonnegative] on the empty trajectory with
    the ticking clock of the fixture. *)
Lemma analyzeRally_processing_time_nonnegative_witness :
  match analyzeRally Fixture.constants Fixture.collaborators "test"
                     [] None None None Fixture.world with
  | Some (result, _) => (0 <= processingTimeMs (metadata result))%Z
  | None => False
  end.
Proof.
  destruct (analyzeRally Fixture.constants Fixture.collaborators "test"
                         [] None None None Fixture.world)
    as [[result w'] |] eqn:Erun.
  - apply (analyzeRally_processing_time_nonnegative
             Fixture.constants Fixture.collaborators "test"
             [] None None None Fixture.world w' result).
    + intros i j Hij. unfold Fixture.world. cbn [clock]. lia.
    + exact Erun.
  - assert (Hreturns :
              option_map (fun _ => tt)
                (analyzeRally Fixture.constants Fixture.collaborators "test"
                              [] None None None Fixture.world)
              = Some tt) by (vm_compute; reflexivity).
    rewrite Erun in Hreturns. discriminate Hreturns.
Defined.

(** ** Flight paths on the court *)

Lemma between_fractions (a b t : Q) :
  0 <= a <= 1 -> 0 <= b <= 1 -> 0 <= t <= 1 ->
  0 <= a + (b - a) * t <= 1.
Proof.
  intros Ha Hb Ht.
  setoid_replace (a + (b - a) * t) with (a * (1 - t) + b * t) by ring.
  assert (0 <= a * (1 - t)) by nra. assert (a * (1 - t) <= 1 - t) by nra.
  assert (0 <= b * t) by nra. assert (b * t <= t) by nra.
  lra.
Qed.

Lemma interior_parameter (i : nat) :
  In i (seq 1 (numPoints - 1)) ->
  0 <= inject_Z (Z.of_nat i) / inject_Z (Z.of_nat numPoints) <= 1.
Proof.
  cbn [numPoints Nat.sub seq]. intros [<- | [<- | [<- | [<- | []]]]];
    vm_compute; split; discriminate.
Qed.

Lemma Forall2_map_pointwise {A B : Type} (R : B -> B -> Prop)
    (f g : A -> B) (l : list A) :
  (forall a, In a l -> R (f a) (g a)) -> Forall2 R (map f l) (map g l).
Proof.
  induction l as [| a rest IH]; intros H; cbn [map]; constructor.
  - apply H. left. reflexivity.
  - apply IH. intros b Hb. apply H. right. exact Hb.
Qed.

(** X25: when the contact point and the centre of the target zone lie on
    the court (the unit square), so does every point of the flight path,
    and for a height factor that is not negative no point is lower than
    the landing height 0.2. *)
Theorem generateShotPath_stays_on_court
    (K : Constants) (C : Collaborators)
    (contactPoint : Position) (targetZone : Z) (shotType : ShotType) :
  onCourt (pos_x contactPoint) (pos_y contactPoint) ->
  onCourt (pos_x (zoneToPosition C targetZone))
          (pos_y (zoneToPosition C targetZone)) ->
  0 <= heightFactor K shotType ->
  Forall (fun p => onCourt (pt_x p) (pt_y p) /\ 0.2 <= pt_z p)
         (generateShotPath K C contactPoint targetZone shotType).
Proof.
  intros [Hcx Hcy] [Htx Hty] Hheight.
  unfold generateShotPath. fold (heightFactor K shotType).
  apply Forall_app. split; [| apply Forall_app; split].
  - constructor; [| constructor]. cbn [pt_x pt_y pt_z].
    split; [split; assumption | discriminate].
  - apply Forall_map, Forall_forall. intros i Hi.
    pose proof (interior_parameter i Hi) as Ht.
    set (t := inject_Z (Z.of_nat i) / inject_Z (Z.of_nat numPoints)) in *.
    cbn [pt_x pt_y pt_z]. split; [split |].
    + apply between_fractions; assumption.
    + apply between_fractions; assumption.
    + set (h := heightFactor K shotType) in *.
      assert (Htt : 0 <= t * (1 - t)) by nra.
      assert (Hh : 0 <= h * (t * (1 - t)))
        by (apply Qmult_le_0_compat; assumption).
      setoid_replace (h * 3 * 4 * t * (1 - t))
        with (12 * (h * (t * (1 - t)))) by ring.
      lra.
  - constructor; [| constructor]. cbn [pt_x pt_y pt_z].
    split; [split; assumption | apply Qle_refl].
Qed.

(** [generateShotPath_stays_on_court] for the clear of the unit tests, from
    (0.5, 0.3) to the back-centre zone. *)
Lemma generateShotPath_stays_on_court_witness :
  Forall (fun p => onCourt (pt_x p) (pt_y p) /\ 0.2 <= pt_z p)
         (generateShotPath Fixture.constants Fixture.collaborators
                           {| pos_x := 0.5; pos_y := 0.3 |} 7 Clear).
Proof.
  apply generateShotPath_stays_on_court.
  - vm_compute. repeat split; discriminate.
  - vm_compute. repeat split; discriminate.
  - vm_compute. discriminate.
Defined.

(** X26: a higher height factor gives a higher arc: for two shot types
    from the same contact point to the same zone, the paths have the same
    x,y point by point, and every height of the shot type with the smaller
    factor is at most the matching height of the other. *)
Theorem generateShotPath_arc_grows_with_height_factor
    (K : Constants) (C : Collaborators)
    (contactPoint : Position) (targetZone : Z) (flat high : ShotType) :
  heightFactor K flat <= heightFactor K high ->
  Forall2 (fun p q => pt_x p = pt_x q /\ pt_y p = pt_y q
                      /\ pt_z p <= pt_z q)
          (generateShotPath K C contactPoint targetZone flat)
          (generateShotPath K C contactPoint targetZone high).
Proof.
  intros Hfactor. unfold generateShotPath.
  fold (heightFactor K flat). fold (heightFactor K high).
  apply Forall2_app; [| apply Forall2_app].
  - constructor; [| constructor]. cbn [pt_x pt_y pt_z].
    repeat split. apply Qle_refl.
  - apply Forall2_map_pointwise. intros i Hi.
    pose proof (interior_parameter i Hi) as Ht.
    set (t := inject_Z (Z.of_nat i) / inject_Z (Z.of_nat numPoints)) in *.
    cbn [pt_x pt_y pt_z]. repeat split.
    set (hf := heightFactor K flat) in *.
    set (hh := heightFactor K high) in *.
    assert (Htt : 0 <= t * (1 - t)) by nra.
    assert (Hmono : hf * (t * (1 - t)) <= hh * (t * (1 - t)))
      by (apply Qmult_le_compat_r; assumption).
    setoid_replace (hf * 3 * 4 * t * (1 - t))
      with (12 * (hf * (t * (1 - t)))) by ring.
    setoid_replace (hh * 3 * 4 * t * (1 - t))
      with (12 * (hh * (t * (1 - t)))) by ring.
    lra.
  - constructor; [| constructor]. cbn [pt_x pt_y pt_z].
    repeat split. apply Qle_refl.
Qed.

(** [generateShotPath_arc_grows_with_height_factor] for a drive and a
    clear, as in the unit test of the arcs. *)
Lemma generateShotPath_arc_grows_with_height_factor_witness :
  Forall2 (fun p q => pt_x p = pt_x q /\ pt_y p = pt_y q
                      /\ pt_z p <= pt_z q)
          (generateShotPath Fixture.constants Fixture.collaborators
                            {| pos_x := 0.5; pos_y := 0.3 |} 7 Drive)
          (generateShotPath Fixture.constants Fixture.collaborators
                            {| pos_x := 0.5; pos_y := 0.3 |} 7 Clear).
Proof.
  apply generateShotPath_arc_grows_with_height_factor.
  vm_compute. discriminate.
Defined.

(** ** Legacy conversion *)

(** X27: [convertLegacyTrajectory] returns the original trajectory
    untouched and exactly one recommendation; its path has one point per
    point of the refined trajectory, with the same x,y in the same order
    and height 1, and the recommendation meets the ranges of a scored one:
    score in [0,100], confidence in [0.5,1], impacts in [-1,1], target zone
    in 0..8. *)
Theorem convertLegacyTrajectory_traces_refined
    (originalTrajectory refinedTrajectory : list TrajectoryPoint) :
  fst (convertLegacyTrajectory originalTrajectory refinedTrajectory)
  = originalTrajectory
  /\ exists rec,
       snd (convertLegacyTrajectory originalTrajectory refinedTrajectory)
       = [rec]
       /\ map (fun p => (pt_x p, pt_y p)) (pathPolyline rec)
          = map (fun p => (tp_x p, tp_y p)) refinedTrajectory
       /\ Forall (fun p => pt_z p == 1) (pathPolyline rec)
       /\ (0 <= score rec <= 100)%Z
       /\ 0.5 <= confidence rec <= 1
       /\ inGrid (targetZone rec) = true
       /\ Forall (fun r => -1 <= impact r <= 1) (rationale rec).
Proof.
  unfold convertLegacyTrajectory. cbn [fst snd].
  split; [reflexivity |]. eexists. split; [reflexivity |].
  cbn [pathPolyline score confidence targetZone rationale].
  split; [| split; [| split; [| split; [| split]]]].
  - rewrite map_map. reflexivity.
  - apply Forall_map, Forall_forall. intros p _. reflexivity.
  - lia.
  - split; discriminate.
  - reflexivity.
  - constructor; [| constructor]. split; discriminate.
Qed.

(** * Properties of the playback engine *)

Lemma TimeScale_value_positive (s : TimeScale) : 0 < TimeScale_value s.
Proof. destruct s; reflexivity. Qed.

Lemma updatePlaybackTime_range (engine : PlaybackEngineRefs) (timestamp : Q) :
  0 <= tRef engine <= 1 ->
  lastTimestampRef engine <= timestamp ->
  0 <= tRef (snd (updatePlaybackTime engine timestamp)) <= 1
  /\ lastTimestampRef (snd (updatePlaybackTime engine timestamp))
     = timestamp.
Proof.
  intros Ht Hlast. unfold updatePlaybackTime.
  destruct (playingRef engine); cbn [negb snd tRef lastTimestampRef];
    [| split; [exact Ht | reflexivity]].
  split; [| reflexivity].
  set (last := if Qeq_bool (lastTimestampRef engine) 0 then timestamp
               else lastTimestampRef engine).
  assert (Hdt : 0 <= timestamp - last).
  { unfold last. destruct (Qeq_bool (lastTimestampRef engine) 0); lra. }
  pose proof (TimeScale_value_positive (timeScaleRef engine)) as Hscale.
  set (scale := TimeScale_value (timeScaleRef engine)) in *.
  assert (Hinc : 0 <= (timestamp - last) / 1000 * scale / 10).
  { setoid_replace ((timestamp - last) / 1000 * scale / 10)
      with ((timestamp - last) * scale * (1 # 10000)) by field.
    assert (0 <= (timestamp - last) * scale)
      by (apply Qmult_le_0_compat; lra).
    lra. }
  destruct (Qle_bool 1 (tRef engine + (timestamp - last) / 1000 * scale / 10))
    eqn:E.
  - split; discriminate.
  - apply not_true_iff_false in E. rewrite Qle_bool_iff in E.
    apply Qnot_le_lt in E. lra.
Qed.

(** X28: the playback time stays in [0,1] under any sequence of calls --
    animation frames, play, pause, toggle, reset, speed and view changes,
    steps by any amount -- as long as the timestamps of the frames never
    go back. *)
Theorem playback_time_stays_in_unit_interval
    (engine : PlaybackEngineRefs) (calls : list PlaybackCall) :
  0 <= tRef engine <= 1 ->
  framesNeverGoBack (lastTimestampRef engine) calls ->
  0 <= tRef (runCalls engine calls) <= 1.
Proof.
  unfold runCalls. revert engine.
  induction calls as [| c rest IH]; intros engine Ht Hframes;
    cbn [fold_left]; [exact Ht |].
  destruct c as [timestamp | | | | | speed | view | delta];
    cbn [framesNeverGoBack] in Hframes; apply IH;
    cbn [applyCall PlaybackEngine.play PlaybackEngine.pause
         PlaybackEngine.toggle PlaybackEngine.reset PlaybackEngine.setSpeed
         PlaybackEngine.setActiveView PlaybackEngine.step
         snd tRef lastTimestampRef];
    try assumption.
  - apply updatePlaybackTime_range; tauto.
  - destruct Hframes as [Hlast Hrest].
    destruct (updatePlaybackTime_range engine timestamp Ht Hlast)
      as [_ ->].
    exact Hrest.
  - split; discriminate.
  - case_minmax; lra.
Qed.

(** [playback_time_stays_in_unit_interval] on a fresh engine: two frames,
    a step beyond the end, a frame, a reset and a frame. *)
Lemma playback_time_stays_in_unit_interval_witness :
  0 <= tRef (runCalls createPlaybackEngine
               [Frame 16; Frame 5016; Step 3; Frame 5032; Reset; Frame 9])
    <= 1.
Proof.
  apply playback_time_stays_in_unit_interval.
  - vm_compute. split; discriminate.
  - vm_compute. repeat split; discriminate.
Defined.

Lemma runFrames_paused (engine : PlaybackEngineRefs) (timestamps : list Q) :
  playingRef engine = false ->
  tRef (runFrames engine timestamps) = tRef engine
  /\ playingRef (runFrames engine timestamps) = false.
Proof.
  unfold runFrames. revert engine.
  induction timestamps as [| ts rest IH]; intros engine Hpaused;
    cbn [fold_left]; [split; [reflexivity | exact Hpaused] |].
  assert (E : snd (updatePlaybackTime engine ts)
              = {| playingRef := false;
                   timeScaleRef := timeScaleRef engine;
                   tRef := tRef engine;
                   activeViewRef := activeViewRef engine;
                   lastTimestampRef := ts |}).
  { unfold updatePlaybackTime. rewrite Hpaused. reflexivity. }
  rewrite E.
  exact (IH {| playingRef := false;
               timeScaleRef := timeScaleRef engine;
               tRef := tRef engine;
               activeViewRef := activeViewRef engine;
               lastTimestampRef := ts |} eq_refl).
Qed.

(** X29: pausing freezes the time: after [pause], any number of animation
    frames, at any timestamps, leave the playback time where it was, and
    the engine paused. *)
Theorem pause_freezes_playback_time
    (engine : PlaybackEngineRefs) (timestamps : list Q) :
  tRef (runFrames (PlaybackEngine.pause engine) timestamps) = tRef engine
  /\ playingRef (runFrames (PlaybackEngine.pause engine) timestamps) = false.
Proof.
  apply (runFrames_paused (PlaybackEngine.pause engine) timestamps).
  reflexivity.
Qed.

(** X30: after [reset], and on a fresh engine, the first animation frame
    does not advance the time, whatever its timestamp: it returns a time
    equal to 0 and records the timestamp, from which later frames
    count. *)
Theorem first_frame_after_reset_stays_at_zero
    (engine : PlaybackEngineRefs) (timestamp : Q) :
  let after := updatePlaybackTime (PlaybackEngine.reset engine) timestamp in
  let fresh := updatePlaybackTime createPlaybackEngine timestamp in
  fst after == 0 /\ tRef (snd after) == 0
  /\ lastTimestampRef (snd after) = timestamp
  /\ fst fresh == 0 /\ tRef (snd fresh) == 0
  /\ lastTimestampRef (snd fresh) = timestamp.
Proof.
  cbv zeta.
  assert (Hzero : forall scale : Q,
            (if Qle_bool 1 (0 + (timestamp - timestamp) / 1000 * scale / 10)
             then 0
             else 0 + (timestamp - timestamp) / 1000 * scale / 10) == 0).
  { intros scale.
    destruct (Qle_bool 1 (0 + (timestamp - timestamp) / 1000 * scale / 10));
      [reflexivity | field]. }
  unfold updatePlaybackTime, PlaybackEngine.reset, createPlaybackEngine.
  cbn [playingRef timeScaleRef tRef activeViewRef lastTimestampRef negb
       Qeq_bool Qnum Qden Z.mul Z.eqb Pos.mul].
  destruct (playingRef engine);
    cbn [negb fst snd tRef lastTimestampRef];
    repeat split; try reflexivity; apply Hzero.
Qed.
